(** * The agentic honeypot: session accumulator, scorer, extractor, reporter
      and session stores, embedded from the Python sources.

    Modelling conventions.
    - A Python [str] is a [string] of code points below 256; [lower] and
      [strip] follow Python on that range. Every configured keyword is
      ASCII.
    - A Python [int] is a [Z]; a [dict] keyed by strings is a [gmap string _],
      and a dict that is iterated is an association list in insertion order.
    - [list(set(xs))] is [elements (list_to_set xs)]: a duplicate-free list
      whose order is left unspecified, as Python leaves it.
    - A naive [datetime] is the count of microseconds of its wall-clock
      reading; [datetime.timestamp()] is a binary64 float, computed from the
      platform's reading of that naive datetime as local time.
    - Every outcome of the outside world (the clock, the local time zone, the
      durable store, the HTTP collector, the text generator) is an explicit
      input. *)

From Stdlib Require Import ZArith Ascii String Floats.
From stdpp Require Import gmap strings list fin_maps.

Local Open Scope string_scope.
Local Open Scope Z_scope.

(** ** Python string operations used by the sources *)
Module Text.

(** The cased capitals below 256: A to Z, and 192 to 222 but for the
    multiplication sign 215. Each has its small letter 32 places up. *)
Definition is_upper (c : ascii) : bool :=
  let n := nat_of_ascii c in
  (((65 <=? n) && (n <=? 90))
   || ((192 <=? n) && (n <=? 222) && negb (n =? 215)))%nat.

Definition lower_char (c : ascii) : ascii :=
  if is_upper c then ascii_of_nat (nat_of_ascii c + 32) else c.

(** [str.lower()] *)
Fixpoint lower (s : string) : string :=
  match s with
  | EmptyString => EmptyString
  | String c s' => String (lower_char c) (lower s')
  end.

(** [str.isspace()] on one character: tab to carriage return, the four
    separators 28 to 31, the blank, next line (133) and the no-break
    space (160). *)
Definition is_space (c : ascii) : bool :=
  let n := nat_of_ascii c in
  (((9 <=? n) && (n <=? 13)) || ((28 <=? n) && (n <=? 32))
   || (n =? 133) || (n =? 160))%nat.

Fixpoint lstrip (s : string) : string :=
  match s with
  | EmptyString => EmptyString
  | String c s' => if is_space c then lstrip s' else s
  end.

Fixpoint rstrip (s : string) : string :=
  match s with
  | EmptyString => EmptyString
  | String c s' =>
      match rstrip s' with
      | EmptyString => if is_space c then EmptyString else String c EmptyString
      | r => String c r
      end
  end.

(** [str.strip()] *)
Definition strip (s : string) : string := lstrip (rstrip s).

(** [hay.startswith(needle)] *)
Fixpoint starts_with (needle hay : string) : bool :=
  match needle, hay with
  | EmptyString, _ => true
  | String _ _, EmptyString => false
  | String a n', String b h' => if Ascii.eqb a b then starts_with n' h' else false
  end.

(** [needle in hay] *)
Fixpoint contains (needle hay : string) : bool :=
  if starts_with needle hay then true
  else match hay with
       | EmptyString => false
       | String _ h' => contains needle h'
       end.

(** Every character is whitespace. *)
Fixpoint all_space (s : string) : bool :=
  match s with
  | EmptyString => true
  | String c s' => is_space c && all_space s'
  end.

(** The first character exists and is not whitespace. *)
Definition begins_solid (s : string) : bool :=
  match s with
  | EmptyString => false
  | String c _ => negb (is_space c)
  end.

(** The last character exists and is not whitespace. *)
Fixpoint ends_solid (s : string) : bool :=
  match s with
  | EmptyString => false
  | String c s' =>
      match s' with
      | EmptyString => negb (is_space c)
      | String _ _ => ends_solid s'
      end
  end.

(** Truthiness of a string: [not s] is true exactly on the empty string. *)
Definition is_empty (s : string) : bool :=
  match s with EmptyString => true | _ => false end.

End Text.

(** ** detector.py *)
Module Detector.
Import Text.

Definition SCAM_SIGNALS : list (string * Z) :=
  [ ("urgent", 2); ("urgently", 2); ("immediately", 2); ("right now", 2);
    ("asap", 2); ("hurry", 2); ("quick", 1); ("fast", 1);
    ("blocked", 3); ("suspended", 3); ("locked", 3); ("frozen", 3);
    ("account suspended", 4); ("account blocked", 4);
    ("will be blocked", 3); ("will be suspended", 3);
    ("verify", 2); ("confirm", 2); ("update", 2); ("validate", 2);
    ("authenticate", 2); ("reactivate", 2);
    ("bank", 1); ("upi", 3); ("account", 1); ("payment", 1);
    ("transaction", 1); ("refund", 2); ("pending", 1); ("debit", 2);
    ("credit", 1);
    ("click", 2); ("click here", 3); ("tap", 2); ("download", 2);
    ("install", 2); ("share", 2); ("provide", 2); ("send", 2);
    ("otp", 3); ("password", 3); ("pin", 3); ("cvv", 4);
    ("card number", 4); ("account number", 3); ("details", 1);
    ("bank representative", 2); ("customer care", 2); ("support team", 2);
    ("official", 1);
    ("lose", 2); ("lost", 2); ("expire", 2); ("expired", 2);
    ("limited time", 2); ("deadline", 2) ].

Definition THRESHOLD : Z := 4.

(** The loop of [detect_scam_score] over an arbitrary table: the running
    [score] is the accumulator. *)
Definition score_loop (table : list (string * Z)) (text_lower : string) : Z :=
  fold_left
    (fun score entry =>
       if contains (fst entry) text_lower then score + snd entry else score)
    table 0.

Definition detect_scam_score (text : string) : Z :=
  if is_empty text then 0
  else score_loop SCAM_SIGNALS (lower text).

Definition is_scam (text : string) : bool :=
  THRESHOLD <=? detect_scam_score text.

End Detector.

(** ** detector.py: the detailed analysis *)
Module DetectorAnalysis.
Import Text Detector.

Record Analysis := {
  scamScore : Z;
  isScam : bool;
  threshold : Z;
  matchedSignals : list (string * Z);
  riskLevel : string;
}.

Definition analyze_message (text : string) : Analysis :=
  let score := detect_scam_score text in
  let is_scam_flag := is_scam text in
  let text_lower := lower text in
  let matched_signals :=
    List.filter (fun signal => contains (fst signal) text_lower) SCAM_SIGNALS in
  {| scamScore := score;
     isScam := is_scam_flag;
     threshold := THRESHOLD;
     matchedSignals := matched_signals;
     riskLevel :=
       if 8 <=? score then "high" else if 4 <=? score then "medium" else "low" |}.

End DetectorAnalysis.

(** ** extractor.py *)
Module Extractor.
Import Text.

(** [re.findall(pattern, text)] of Python's standard library, for patterns
    without groups: the non-overlapping matches, left to right. *)
Class Regex := { findall : string -> string -> list string }.

(** [list(set(xs))] *)
Definition list_set (xs : list string) : list string :=
  elements (list_to_set xs : gset string).

Definition upi_handles : list string :=
  ["@upi"; "@paytm"; "@ybl"; "@oksbi"; "@okaxis"; "@okicici"; "@okhdfcbank"].

Definition phone_patterns : list string :=
  ["\+91[-\s]?\d{10}"; "\b91\d{10}\b"; "\b[6-9]\d{9}\b"].

Definition suspicious_keywords_list : list string :=
  ["urgent"; "urgently"; "verify"; "blocked"; "suspended";
   "click"; "otp"; "password"; "pin"; "cvv"; "account number";
   "card number"; "immediately"; "expire"; "frozen"; "locked"].

Section WithRegex.
Context {regex : Regex}.

(** The returned dict, as its items in insertion order. *)
Definition extract_intelligence (text : string) : list (string * list string) :=
  if is_empty text then
    [ ("bankAccounts", []); ("upiIds", []); ("phishingLinks", []);
      ("phoneNumbers", []); ("suspiciousKeywords", []); ("emailAddresses", []) ]
  else
    let bank_accounts := list_set (findall "\b\d{12,16}\b" text) in
    let upi_ids := list_set (findall "[a-zA-Z0-9._-]+@[a-zA-Z0-9]+" text) in
    let upi_ids :=
      List.filter
        (fun uid => existsb (fun handle => contains handle (lower uid)) upi_handles)
        upi_ids in
    let urls := list_set (findall "https?://\S+" text) in
    let phone_numbers :=
      fold_left (fun acc pattern => (acc ++ findall pattern text)%list) phone_patterns [] in
    let phone_numbers := list_set phone_numbers in
    let email_addresses :=
      list_set (findall "\b[A-Za-z0-9._%+-]+@[A-Za-z0-9.-]+\.[A-Z|a-z]{2,}\b" text) in
    let text_lower := lower text in
    let found_keywords :=
      list_set (List.filter (fun kw => contains kw text_lower) suspicious_keywords_list) in
    [ ("bankAccounts", bank_accounts); ("upiIds", upi_ids);
      ("phishingLinks", urls); ("phoneNumbers", phone_numbers);
      ("suspiciousKeywords", found_keywords);
      ("emailAddresses", email_addresses) ].

End WithRegex.
End Extractor.

(** ** extractor.py: the categorised extraction *)
Module ExtractorRisk.

(** [d[key]] on the dict returned by [extract_intelligence], which always
    carries the six keys. *)
Fixpoint getitem (d : list (string * list string)) (key : string) : list string :=
  match d with
  | [] => []
  | (k, v) :: d' => if String.eqb k key then v else getitem d' key
  end.

(** The returned dict: the extracted items, then the two risk entries. *)
Record Categorized := {
  intelligence : list (string * list string);
  riskScore : Z;
  riskLevel : string;
}.

Section WithRegex.
Context {regex : Extractor.Regex}.

Definition extract_and_categorize (text : string) : Categorized :=
  let intel := Extractor.extract_intelligence text in
  let count (key : string) : Z := Z.of_nat (List.length (getitem intel key)) in
  let risk_score := 0 in
  let risk_score :=
    if 0 <? count "bankAccounts"
    then risk_score + 5 * count "bankAccounts" else risk_score in
  let risk_score :=
    if 0 <? count "upiIds"
    then risk_score + 4 * count "upiIds" else risk_score in
  let risk_score :=
    if 0 <? count "phishingLinks"
    then risk_score + 3 * count "phishingLinks" else risk_score in
  let risk_score :=
    if 0 <? count "phoneNumbers"
    then risk_score + 2 * count "phoneNumbers" else risk_score in
  {| intelligence := intel;
     riskScore := risk_score;
     riskLevel :=
       if 10 <=? risk_score then "critical"
       else if 5 <=? risk_score then "high"
       else if 0 <? risk_score then "medium"
       else "low" |}.

End WithRegex.
End ExtractorRisk.

(** ** callback.py *)
Module Callback.
Import Text.

(** The dict built in [main.chat] and posted to the collector. *)
Record Payload := {
  sessionId : string;
  scamDetected : bool;
  totalMessagesExchanged : Z;
  extractedIntelligence : gmap string (list string);
  agentNotes : string;
  finalScamScore : Z;
  timestamp : Z;
}.

(** What one [requests.post] does: it returns a response with a status
    code, or raises. *)
Inductive post_outcome :=
| Response (status_code : Z)
| Timeout
| ConnectionError
| OtherException.

(** The test [response.status_code == 200]; a post that raised did not
    succeed. *)
Definition succeeded (outcome : post_outcome) : bool :=
  match outcome with
  | Response status_code => status_code =? 200
  | _ => false
  end.

(** The [for attempt in range(max_retries)] loop: [attempt] is the loop
    index, [remaining] the iterations left. It returns the result and the
    outcomes of the posts it made, oldest first. *)
Fixpoint attempt_loop (post : nat -> post_outcome) (attempt remaining : nat)
  : bool * list post_outcome :=
  match remaining with
  | O => (false, [])
  | S remaining' =>
      let outcome := post attempt in
      if succeeded outcome then (true, [outcome])
      else
        let '(ok, made) := attempt_loop post (S attempt) remaining' in
        (ok, outcome :: made)
  end.

(** [post i] is the outcome of the [i]-th post, would it be made. The
    payload is what every post carries; it does not steer the loop. *)
Definition send_final_callback (GUVI_CALLBACK_URL : string) (post : nat -> post_outcome)
    (payload : Payload) (max_retries : Z) : bool * list post_outcome :=
  if is_empty GUVI_CALLBACK_URL then (false, [])
  else attempt_loop post 0 (Z.to_nat max_retries).

Definition default_max_retries : Z := 3.

End Callback.

(** ** models.py *)
Module Models.

Record Message := {
  sender : string;
  text : string;
  timestamp : Z;
}.

(** [conversationHistory] is [Optional[List[Message]]]: a request may
    carry null. [metadata] is never read and is left out. *)
Record ChatRequest := {
  sessionId : string;
  message : Message;
  conversationHistory : option (list Message);
}.

Record ChatResponse := {
  status : string;
  reply : string;
  scamDetected : bool;
  scamScore : Z;
  messageCount : Z;
}.

End Models.

(** ** The session dict of main.py (the shape of [models.SessionInfo]).
    [lastUpdated] is the naive datetime its ISO text reads as, and [None]
    when the key is absent or the text does not read as a date, the two
    cases [memory.cleanup_old_sessions] skips. *)
Record Session := {
  sessionId : string;
  messages : list Models.Message;
  scamDetected : bool;
  scamScore : Z;
  intel : gmap string (list string);
  callbackSent : bool;
  createdAt : Z;
  lastUpdated : option Z;
}.

(** ** redis_store.py *)
Module RedisStore.

(** [redis_client] is fixed when the module is loaded ([connected]); [db]
    is what the server holds under each key. A stored value is the JSON
    text of the session, which [json.loads] reads back as the same dict. *)
Record Redis := {
  connected : bool;
  db : gmap string Session;
}.

(** [fault]: the call to the server raises; for a read it also stands
    for a key that has expired. Either way the caller gets [None] or
    [False], never the exception. *)
Definition get_session (r : Redis) (fault : bool) (session_id : string)
  : option Session :=
  if negb (connected r) then None
  else if fault then None
  else db r !! session_id.

Definition save_session (r : Redis) (fault : bool) (session_id : string)
    (data : Session) : Redis * bool :=
  if negb (connected r) then (r, false)
  else if fault then (r, false)
  else ({| connected := connected r; db := <[session_id := data]> (db r) |}, true).

(** [redis_client.delete] answers with the number of keys it removed. *)
Definition delete_session (r : Redis) (fault : bool) (session_id : string)
  : Redis * bool :=
  if negb (connected r) then (r, false)
  else if fault then (r, false)
  else
    match db r !! session_id with
    | Some _ =>
        ({| connected := connected r; db := delete session_id (db r) |}, true)
    | None => (r, false)
    end.

(** [redis_client.keys("*")]: the keys held, in the server's order. *)
Definition get_all_sessions (r : Redis) (fault : bool) : list string :=
  if negb (connected r) then []
  else if fault then []
  else (map_to_list (db r)).*1.

(** [fault]: the ping raises. *)
Definition check_connection (r : Redis) (fault : bool) : bool :=
  if negb (connected r) then false
  else if fault then false
  else true.

End RedisStore.

(** ** memory.py *)
Module Memory.

(** What [datetime.timestamp()] takes from the platform for a naive
    datetime: [mktime] reads its whole seconds as local time and answers in
    seconds since the epoch. *)
Class LocalTime := { mktime : Z -> Z }.

(** A Python int as a float, for magnitudes below 2^63. *)
Definition float_of_int (n : Z) : float :=
  if n <? 0 then PrimFloat.opp (PrimFloat.of_uint63 (Uint63.of_Z (- n)))
  else PrimFloat.of_uint63 (Uint63.of_Z n).

(** [dt.timestamp()] for a naive [dt]: [mktime] of the whole seconds, plus
    [dt.microsecond / 1e6]. *)
Definition timestamp {local : LocalTime} (naive : Z) : float :=
  PrimFloat.add (float_of_int (mktime (naive / 1000000)))
    (PrimFloat.div (float_of_int (naive mod 1000000)) 1e6%float).

(** Python's [x > n] for a float [x] and an int [n]: the two numbers are
    compared exactly; a NaN is greater than nothing. *)
Definition float_gt_int (x : float) (n : Z) : bool :=
  match Prim2SF x with
  | S754_zero _ => n <? 0
  | S754_infinity negative => negb negative
  | S754_nan => false
  | S754_finite negative m e =>
      let numerator := if negative then Z.neg m else Z.pos m in
      if 0 <=? e then n <? numerator * 2 ^ e
      else n * 2 ^ (- e) <? numerator
  end.

(** The first loop: the ids whose [lastUpdated] is present, reads as a
    date, and is older than [max_age_seconds]. [now] is the reading of
    [datetime.utcnow()]. *)
Definition to_delete {local : LocalTime} (sessions : gmap string Session)
    (now max_age_seconds : Z) : list string :=
  let current_time := timestamp now in
  omap
    (fun item : string * Session =>
       match lastUpdated (snd item) with
       | Some iso =>
           let last_updated := timestamp iso in
           if float_gt_int (PrimFloat.sub current_time last_updated)
                max_age_seconds
           then Some (fst item) else None
       | None => None
       end)
    (map_to_list sessions).

Definition cleanup_old_sessions {local : LocalTime}
    (sessions : gmap string Session) (now max_age_seconds : Z)
  : gmap string Session :=
  if decide (sessions = ∅) then sessions
  else
    fold_left (fun acc session_id => delete session_id acc)
      (to_delete sessions now max_age_seconds) sessions.

(** The test of the first loop on one session. *)
Definition stale {local : LocalTime} (now max_age_seconds : Z)
    (session : Session) : bool :=
  match lastUpdated session with
  | Some iso =>
      float_gt_int (PrimFloat.sub (timestamp now) (timestamp iso))
        max_age_seconds
  | None => false
  end.

Definition get_session_count (sessions : gmap string Session) : nat :=
  size sessions.

End Memory.

(** ** agent.py *)
Module Agent.
Import Text.

Definition FALLBACK_RESPONSES : list string :=
  [ "I'm not sure I understand. Can you explain what exactly I need to do?";
    "This seems urgent. What happens if I don't do this right away?";
    "Can you tell me more about why this is happening?";
    "I'm a bit confused. Can you walk me through the steps?";
    "Is there a number I can call to verify this?";
    "What information do you need from me?";
    "How did you get my contact information?";
    "I want to help, but I'm not sure what to do next." ].

(** [generated] is the text the model returned; [None] stands for no
    client, a call that raised, or a response without text. A null
    [history] makes [len(history)] raise: the result is then [None]. *)
Definition generate_agent_reply (latest_message : string)
    (history : option (list Models.Message)) (generated : option string)
  : option string :=
  match history with
  | None => None
  | Some history =>
      let fallback_index :=
        Nat.min (List.length history) (List.length FALLBACK_RESPONSES - 1) in
      let fallback_reply := nth fallback_index FALLBACK_RESPONSES "" in
      match generated with
      | None => Some fallback_reply
      | Some response_text =>
          let reply := strip response_text in
          if (negb (is_empty reply) && (10 <? String.length reply)
              && (String.length reply <? 500))%nat
          then Some reply else Some fallback_reply
      end
  end.

End Agent.

(** ** main.py *)
Module Main.
Import Text.

(** config.py: the values read from the environment at start-up. *)
Record Config := {
  API_KEY : string;
  GUVI_CALLBACK_URL : string;
}.

(** What the outside world answers while one request is handled: the
    clock, whether the calls to the durable store raise, the text the
    generator returns, and the outcome of each post to the collector. *)
Record World := {
  utcnow : Z;
  redis_get_fault : bool;
  redis_save_fault : bool;
  generated : option string;
  post : nat -> Callback.post_outcome;
}.

(** The same world, where the save to the durable store raises or not. *)
Definition set_redis_save_fault (w : World) (fault : bool) : World :=
  {| utcnow := utcnow w; redis_get_fault := redis_get_fault w;
     redis_save_fault := fault; generated := generated w; post := post w |}.

(** The two stores a request sees: the durable one, and the process-wide
    dict [memory.sessions]. *)
Record Store := {
  redis : RedisStore.Redis;
  sessions : gmap string Session;
}.

Inductive HTTPException :=
| HTTPError (status_code : Z) (detail : string).

(** The calls a request makes to its collaborators and the writes it
    does, in program order. *)
Inductive Event :=
| GetSession (session_id : string)
| Scorer (text : string)
| Extractor (text : string)
| ReplyGenerator (text : string)
| Reporter (payload : Callback.Payload) (posts : list Callback.post_outcome)
| SaveSession (session_id : string) (data : Session) (ok : bool)
| SessionsWrite (session_id : string) (data : Session).

Definition is_reporter (e : Event) : bool :=
  match e with Reporter _ _ => true | _ => false end.

Definition reporter_calls (events : list Event) : nat :=
  List.length (List.filter is_reporter events).

(** Assignments [session[key] = v]. *)
Definition set_messages (s : Session) (v : list Models.Message) : Session :=
  {| sessionId := sessionId s; messages := v; scamDetected := scamDetected s;
     scamScore := scamScore s; intel := intel s; callbackSent := callbackSent s;
     createdAt := createdAt s; lastUpdated := lastUpdated s |}.

Definition set_lastUpdated (s : Session) (v : option Z) : Session :=
  {| sessionId := sessionId s; messages := messages s; scamDetected := scamDetected s;
     scamScore := scamScore s; intel := intel s; callbackSent := callbackSent s;
     createdAt := createdAt s; lastUpdated := v |}.

Definition set_scamScore (s : Session) (v : Z) : Session :=
  {| sessionId := sessionId s; messages := messages s; scamDetected := scamDetected s;
     scamScore := v; intel := intel s; callbackSent := callbackSent s;
     createdAt := createdAt s; lastUpdated := lastUpdated s |}.

Definition set_scamDetected (s : Session) (v : bool) : Session :=
  {| sessionId := sessionId s; messages := messages s; scamDetected := v;
     scamScore := scamScore s; intel := intel s; callbackSent := callbackSent s;
     createdAt := createdAt s; lastUpdated := lastUpdated s |}.

Definition set_intel (s : Session) (v : gmap string (list string)) : Session :=
  {| sessionId := sessionId s; messages := messages s; scamDetected := scamDetected s;
     scamScore := scamScore s; intel := v; callbackSent := callbackSent s;
     createdAt := createdAt s; lastUpdated := lastUpdated s |}.

Definition set_callbackSent (s : Session) (v : bool) : Session :=
  {| sessionId := sessionId s; messages := messages s; scamDetected := scamDetected s;
     scamScore := scamScore s; intel := intel s; callbackSent := v;
     createdAt := createdAt s; lastUpdated := lastUpdated s |}.

Definition intel_fields : list string :=
  ["bankAccounts"; "upiIds"; "phishingLinks"; "phoneNumbers";
   "suspiciousKeywords"; "emailAddresses"].

(** Lines 101-117: the dict of a session seen for the first time. *)
Definition new_session (session_id : string) (now : Z) : Session :=
  {| sessionId := session_id;
     messages := [];
     scamDetected := false;
     scamScore := 0;
     intel :=
       <["bankAccounts" := []]> (<["upiIds" := []]> (<["phishingLinks" := []]>
       (<["phoneNumbers" := []]> (<["suspiciousKeywords" := []]>
       (<["emailAddresses" := []]> ∅)))));
     callbackSent := false;
     createdAt := now;
     lastUpdated := Some now |}.

(** Lines 119-121. *)
Definition store_message (session : Session) (message : Models.Message) (now : Z)
  : Session :=
  let session := set_messages session (messages session ++ [message])%list in
  set_lastUpdated session (Some now).

(** Lines 123-131. *)
Definition scam_detection (session : Session) (text : string) : Session :=
  let score := Detector.detect_scam_score text in
  let session := set_scamScore session (scamScore session + score) in
  if Detector.is_scam text && negb (scamDetected session)
  then set_scamDetected session true
  else session.

(** Lines 135-137: the loop over the keys of the extracted dict. *)
Definition merge_intel (stored : gmap string (list string))
    (extracted : list (string * list string)) : gmap string (list string) :=
  fold_left
    (fun acc item =>
       match acc !! fst item with
       | Some old => <[fst item := Extractor.list_set (old ++ snd item)%list]> acc
       | None => acc
       end)
    extracted stored.

Section WithCollaborators.
Context {regex : Extractor.Regex} (cfg : Config).

(** Lines 133-137. *)
Definition intelligence_extraction (session : Session) (text : string) : Session :=
  let extracted := Extractor.extract_intelligence text in
  set_intel session (merge_intel (intel session) extracted).

(** Lines 147-163. *)
Definition final_callback (session : Session) (session_id : string)
    (message_count : Z) (w : World) : Session * list Event :=
  if scamDetected session && (8 <=? message_count) && negb (callbackSent session)
  then
    let payload :=
      {| Callback.sessionId := session_id;
         Callback.scamDetected := true;
         Callback.totalMessagesExchanged := message_count;
         Callback.extractedIntelligence := intel session;
         Callback.agentNotes := "Multi-turn urgency-based financial scam detected";
         Callback.finalScamScore := scamScore session;
         Callback.timestamp := utcnow w |} in
    let result :=
      Callback.send_final_callback (GUVI_CALLBACK_URL cfg) (post w) payload
        Callback.default_max_retries in
    (set_callbackSent session true, [Reporter payload (snd result)])
  else (session, []).

(** Lines 119-163 on the session the request resolved. The result is the
    session dict as the request leaves it, the reply and message count when
    no exception was raised, and the calls made. *)
Definition process (session_id : string) (session : Session)
    (message : Models.Message) (text : string)
    (history : option (list Models.Message)) (w : World)
  : Session * option (string * Z) * list Event :=
  let session := store_message session message (utcnow w) in
  let session := scam_detection session text in
  let session := intelligence_extraction session text in
  let calls := [Scorer text; Scorer text; Extractor text; ReplyGenerator text] in
  match Agent.generate_agent_reply text history (generated w) with
  | None => (session, None, calls)
  | Some reply =>
      let message_count := Z.of_nat (List.length (messages session)) in
      let '(session, reported) := final_callback session session_id message_count w in
      (session, Some (reply, message_count), (calls ++ reported)%list)
  end.

(** Where line 97 found the session. *)
Inductive origin := FromRedis | FromSessions | Created.

(** Lines 97-117: [get_session(session_id) or sessions.get(session_id)],
    then a new dict when both are empty. *)
Definition resolve (st : Store) (w : World) (session_id : string)
  : Session * origin :=
  match RedisStore.get_session (redis st) (redis_get_fault w) session_id with
  | Some session => (session, FromRedis)
  | None =>
      match sessions st !! session_id with
      | Some session => (session, FromSessions)
      | None => (new_session session_id (utcnow w), Created)
      end
  end.

(** The [/chat] endpoint. An exception raised after line 97 reaches the
    handler at line 179; a dict that came from [sessions] has by then been
    changed in place, one read back from the durable store or newly made
    is dropped. *)
Definition chat (st : Store) (body : Models.ChatRequest)
    (x_api_key : option string) (w : World)
  : Store * (HTTPException + Models.ChatResponse) * list Event :=
  if negb (bool_decide (x_api_key = Some (API_KEY cfg)))
  then (st, inl (HTTPError 401 "Invalid API Key"), [])
  else
    let message := Models.message body in
    let text := strip (Models.text message) in
    if is_empty text
    then (st, inl (HTTPError 400 "Message text is required"), [])
    else
      let session_id := Models.sessionId body in
      let '(session, from) := resolve st w session_id in
      match process session_id session message text
              (Models.conversationHistory body) w with
      | (session, None, calls) =>
          let st' :=
            match from with
            | FromSessions =>
                {| redis := redis st;
                   sessions := <[session_id := session]> (sessions st) |}
            | _ => st
            end in
          (st', inl (HTTPError 500 "Internal server error"),
           GetSession session_id :: calls)
      | (session, Some (reply, message_count), calls) =>
          let '(redis', ok) :=
            RedisStore.save_session (redis st) (redis_save_fault w)
              session_id session in
          ({| redis := redis';
              sessions := <[session_id := session]> (sessions st) |},
           inr {| Models.status := "success";
                  Models.reply := reply;
                  Models.scamDetected := scamDetected session;
                  Models.scamScore := scamScore session;
                  Models.messageCount := message_count |},
           (GetSession session_id :: calls
              ++ [SaveSession session_id session ok;
                  SessionsWrite session_id session])%list)
      end.

(** The session dict of a request that passes both checks, as lines
    119-163 leave it: the copy line 97 picked up, processed. *)
Definition processed (st : Store) (body : Models.ChatRequest) (w : World)
  : Session :=
  (process (Models.sessionId body) (resolve st w (Models.sessionId body)).1
     (Models.message body) (strip (Models.text (Models.message body)))
     (Models.conversationHistory body) w).1.1.

(** The session as lines 119-137 leave it. *)
Definition accumulated (session : Session) (message : Models.Message)
    (text : string) (now : Z) : Session :=
  intelligence_extraction
    (scam_detection (store_message session message now) text) text.

(** The test of lines 147-151. *)
Definition callback_due (session : Session) (message_count : Z) : bool :=
  scamDetected session && (8 <=? message_count) && negb (callbackSent session).

(** The request reaches line 146 and the test there succeeds. *)
Definition reports (session : Session) (text : string)
    (history : option (list Models.Message)) : bool :=
  match history with
  | None => false
  | Some _ =>
      (scamDetected session || Detector.is_scam text)
      && (8 <=? Z.of_nat (List.length (messages session)) + 1)
      && negb (callbackSent session)
  end.

(** ** One message handled on a session dict *)

Record Step := {
  step_message : Models.Message;
  step_history : option (list Models.Message);
  step_world : World;
}.

Definition handle (session_id : string) (session : Session) (step : Step)
  : Session * option (string * Z) * list Event :=
  process session_id session (step_message step)
    (strip (Models.text (step_message step))) (step_history step)
    (step_world step).

(** ** The life of the service: the requests it answers, in order *)

Record Request := {
  request_body : Models.ChatRequest;
  request_key : option string;
  request_world : World;
}.

Fixpoint serve (st : Store) (requests : list Request) : Store * list Event :=
  match requests with
  | [] => (st, [])
  | r :: rest =>
      let '(st', _, events) :=
        chat st (request_body r) (request_key r) (request_world r) in
      let '(final, later) := serve st' rest in
      (final, (events ++ later)%list)
  end.

(** The [/session/{session_id}] endpoint: the session under
    ["session"], the status being the constant ["success"]. *)
Definition get_session_info (st : Store) (session_id : string)
    (x_api_key : option string) (get_fault : bool)
  : HTTPException + Session :=
  if negb (bool_decide (x_api_key = Some (API_KEY cfg)))
  then inl (HTTPError 401 "Invalid API Key")
  else
    match RedisStore.get_session (redis st) get_fault session_id with
    | Some session => inr session
    | None =>
        match sessions st !! session_id with
        | Some session => inr session
        | None => inl (HTTPError 404 "Session not found")
        end
    end.

End WithCollaborators.

(** The reports made for one session id. *)
Definition is_report_for (session_id : string) (e : Event) : bool :=
  match e with
  | Reporter payload _ => bool_decide (Callback.sessionId payload = session_id)
  | _ => false
  end.

Definition reports_for (session_id : string) (events : list Event) : nat :=
  List.length (List.filter (is_report_for session_id) events).

(** Every copy of the session that a request can pick up has callbackSent
    set: the one in [sessions], and the durable one when there is a
    durable store. *)
Definition latched (st : Store) (session_id : string) : Prop :=
  (RedisStore.connected (redis st) = true ->
   forall session, RedisStore.db (redis st) !! session_id = Some session ->
                   callbackSent session = true)
  /\ (exists session, sessions st !! session_id = Some session
                      /\ callbackSent session = true).


(** Every session dict under [session_id], in either store, satisfies [P]. *)
Definition every_copy (P : Session -> Prop) (st : Store) (session_id : string)
  : Prop :=
  (forall session, RedisStore.db (redis st) !! session_id = Some session ->
                   P session)
  /\ (forall session, sessions st !! session_id = Some session -> P session).

(** Every session dict in the stores satisfies [P]. *)
Definition all_stored (P : Session -> Prop) (st : Store) : Prop :=
  forall session_id, every_copy P st session_id.


(** The requests made under one session id. *)
Definition requests_for (session_id : string) (requests : list Request)
  : list Request :=
  List.filter
    (fun r => bool_decide (Models.sessionId (request_body r) = session_id))
    requests.

(** The intel object has the six fields. *)
Definition six_fields (session : Session) : Prop :=
  dom (intel session) = list_to_set intel_fields.




End Main.

(** ** The scorer as the specification words it *)
Module ScorerSpec.

(** [key] occurs in [text] as a substring, letter case disregarded. *)
Definition occurs_ci (key text : string) : Prop :=
  exists pre mid post,
    text = (pre ++ mid ++ post)%string /\ Text.lower mid = Text.lower key.

(** [weights_sum text table n]: [n] is the sum of the weights of the
    entries of [table] whose key occurs in [text], every entry of the
    table being looked at once. *)
Inductive weights_sum (text : string) : list (string * Z) -> Z -> Prop :=
| ws_nil : weights_sum text [] 0
| ws_match key weight table n :
    occurs_ci key text -> weights_sum text table n ->
    weights_sum text ((key, weight) :: table) (weight + n)
| ws_skip key weight table n :
    ~ occurs_ci key text -> weights_sum text table n ->
    weights_sum text ((key, weight) :: table) n.

(** Every key of a table is written in lower case. *)
Definition lower_keys (table : list (string * Z)) : bool :=
  forallb (fun entry => String.eqb (Text.lower (fst entry)) (fst entry)) table.

(** Every key of a table begins and ends with a visible character. *)
Definition solid_keys (table : list (string * Z)) : bool :=
  forallb
    (fun entry => Text.begins_solid (fst entry) && Text.ends_solid (fst entry))
    table.

(** The sum of the weights of a list of entries. *)
Definition total_weight (entries : list (string * Z)) : Z :=
  foldr Z.add 0 (snd <$> entries).

(** Every weight of a table is positive. *)
Definition positive_weights (table : list (string * Z)) : bool :=
  forallb (fun entry => 0 <? snd entry) table.

(** Every suspicious keyword of the extractor is a key of the table, with
    a weight of at least [least]. *)
Definition keywords_weigh (least : Z) (keywords : list string)
    (table : list (string * Z)) : bool :=
  forallb
    (fun keyword =>
       existsb
         (fun entry => String.eqb (fst entry) keyword && (least <=? snd entry))
         table)
    keywords.

End ScorerSpec.

(** ** Concrete requests and sessions, for evaluating the handler *)
Module Scenario.
Import Main.

(** On a text with no digit, no at-sign and no URL scheme none of the
    extractor's patterns matches: [findall] returns the empty list. The
    texts below are of that kind. *)
Definition plain_text_regex : Extractor.Regex :=
  {| Extractor.findall := fun _ _ => [] |}.

Definition config : Config :=
  {| API_KEY := "s3cret";
     GUVI_CALLBACK_URL := "https://collector.example/report" |}.

(** The collector answers 200 to the second post, and times out otherwise. *)
Definition second_post_lands (attempt : nat) : Callback.post_outcome :=
  if (attempt =? 1)%nat then Callback.Response 200 else Callback.Timeout.

Definition never_lands (attempt : nat) : Callback.post_outcome :=
  Callback.Response 503.

Definition world (now : Z) (post : nat -> Callback.post_outcome)
    (save_fault : bool) : World :=
  {| utcnow := now; redis_get_fault := false; redis_save_fault := save_fault;
     generated := None; post := post |}.

Definition says (text : string) : Models.Message :=
  {| Models.sender := "scammer"; Models.text := text;
     Models.timestamp := 1704067200 |}.

Definition step (text : string) (post : nat -> Callback.post_outcome) : Step :=
  {| step_message := says text; step_history := Some [];
     step_world := world 1704067200000000 post false |}.

Definition request (session_id text : string) : Models.ChatRequest :=
  {| Models.sessionId := session_id; Models.message := says text;
     Models.conversationHistory := Some [] |}.

(** A session in which a scam was detected and seven messages were
    exchanged, the report still to be made. *)
Definition seven_messages : Session :=
  {| sessionId := "s-1";
     messages := replicate 7 (says "Share your OTP and CVV");
     scamDetected := true;
     scamScore := 63;
     intel := intel (new_session "s-1" 0);
     callbackSent := false;
     createdAt := 1704067000000000;
     lastUpdated := Some 1704067100000000 |}.

Definition no_store : Store :=
  {| redis := {| RedisStore.connected := false; RedisStore.db := ∅ |};
     sessions := ∅ |}.

Definition durable_store : Store :=
  {| redis := {| RedisStore.connected := true; RedisStore.db := ∅ |};
     sessions := ∅ |}.

(** A request that carries a null conversation history. *)
Definition request_without_history (session_id text : string)
  : Models.ChatRequest :=
  {| Models.sessionId := session_id; Models.message := says text;
     Models.conversationHistory := None |}.

(** No durable store, one session in memory. *)
Definition memory_store : Store :=
  {| redis := {| RedisStore.connected := false; RedisStore.db := ∅ |};
     sessions := {[ "s-1" := seven_messages ]} |}.

(** The answer to a first message that asks for the OTP and the CVV. *)
Definition first_answer : Models.ChatResponse :=
  {| Models.status := "success";
     Models.reply :=
       "I'm not sure I understand. Can you explain what exactly I need to do?";
     Models.scamDetected := true;
     Models.scamScore := 9;
     Models.messageCount := 1 |}.

(** A request with the right secret; the save to the durable store
    raises when [save_fault] is set. *)
Definition asks (session_id text : string) (save_fault : bool) : Request :=
  {| request_body := request session_id text; request_key := Some "s3cret";
     request_world := world 1704067200000000 never_lands save_fault |}.




(** A session last updated at the reading [at]. *)
Definition updated_at (at_reading : Z) : Session :=
  {| sessionId := "s-1";
     messages := [says "hello"];
     scamDetected := false;
     scamScore := 0;
     intel := intel (new_session "s-1" 0);
     callbackSent := false;
     createdAt := at_reading;
     lastUpdated := Some at_reading |}.

(** Local time in a zone two hours ahead of UTC whose clocks are set back
    one hour at 03:00 on 2024-10-27: a naive reading before 03:00 that day
    is taken as summer time, a later one as winter time. *)
Definition clocks_set_back : Memory.LocalTime :=
  {| Memory.mktime := fun wall =>
       if wall <? 1729998000 then wall - 7200 else wall - 3600 |}.

(** Local time is UTC. *)
Definition utc : Memory.LocalTime := {| Memory.mktime := fun wall => wall |}.

(** [utcnow] at 02:45:00 and at 03:15:00 on 2024-10-27. *)
Definition before_clock_change : Z := 1729997100 * 1000000.
Definition after_clock_change : Z := 1729998900 * 1000000.

(** [utcnow] half an hour before and half an hour after 2^31 seconds, at
    the same microsecond. *)
Definition hour_earlier : Z := (2147483648 - 1800) * 1000000 + 6.
Definition hour_later : Z := (2147483648 + 1800) * 1000000 + 6.

End Scenario.

(** * Properties *)

(** ** Strings *)
Section TextFacts.
Import Text.
Local Arguments String.append : simpl nomatch.

Lemma string_app_assoc (a b c : string) :
  ((a ++ b) ++ c)%string = (a ++ (b ++ c))%string.
Proof. induction a as [|x a IH]; simpl; [reflexivity | by rewrite IH]. Qed.

Lemma string_app_empty_r (a : string) : (a ++ "")%string = a.
Proof. induction a as [|x a IH]; simpl; [reflexivity | by rewrite IH]. Qed.

Lemma lower_app (a b : string) :
  lower (a ++ b) = (lower a ++ lower b)%string.
Proof. induction a as [|x a IH]; simpl; [reflexivity | by rewrite IH]. Qed.

Lemma lower_split (t a b : string) :
  lower t = (a ++ b)%string ->
  exists ta tb, t = (ta ++ tb)%string /\ lower ta = a /\ lower tb = b.
Proof.
  revert t. induction a as [|x a IH]; intros t H.
  - exists "", t. auto.
  - destruct t as [|c t]; simpl in H; [discriminate|].
    injection H as Hc Ht. destruct (IH _ Ht) as (ta & tb & -> & <- & <-).
    exists (String c ta), tb. simpl. by rewrite Hc.
Qed.

Lemma starts_with_app (x b : string) : starts_with x (x ++ b) = true.
Proof.
  induction x as [|c x IH]; simpl; [reflexivity|].
  by rewrite Ascii.eqb_refl.
Qed.

Lemma starts_with_inv (x h : string) :
  starts_with x h = true -> exists b, h = (x ++ b)%string.
Proof.
  revert h. induction x as [|c x IH]; intros h H.
  - by exists h.
  - destruct h as [|d h]; simpl in H; [discriminate|].
    destruct (Ascii.eqb_spec c d) as [->|]; [|discriminate].
    destruct (IH _ H) as [b ->]. by exists b.
Qed.

Lemma contains_starts_with (x h : string) :
  starts_with x h = true -> contains x h = true.
Proof. intros H. destruct h; simpl; by rewrite H. Qed.

Lemma contains_app (x a b : string) : contains x (a ++ x ++ b) = true.
Proof.
  induction a as [|c a IH]; simpl.
  - apply contains_starts_with, starts_with_app.
  - rewrite IH. by destruct (starts_with x _).
Qed.

Lemma contains_inv (x h : string) :
  contains x h = true -> exists a b, h = (a ++ x ++ b)%string.
Proof.
  induction h as [|c h IH]; simpl; intros H.
  - destruct (starts_with x "") eqn:E; [|discriminate].
    destruct (starts_with_inv _ _ E) as [b ->]. by exists "", b.
  - destruct (starts_with x (String c h)) eqn:E.
    + destruct (starts_with_inv _ _ E) as [b ->]. by exists "", b.
    + destruct (IH H) as (a & b & ->). by exists (String c a), b.
Qed.

Lemma lstrip_split (t : string) :
  exists a, t = (a ++ lstrip t)%string /\ all_space a = true.
Proof.
  induction t as [|c t (a & Ht & Ha)]; [by exists ""|].
  simpl. destruct (is_space c) eqn:Hc.
  - exists (String c a). simpl. rewrite Hc, Ha. by rewrite <- Ht.
  - by exists "".
Qed.

Lemma rstrip_split (t : string) :
  exists b, t = (rstrip t ++ b)%string /\ all_space b = true.
Proof.
  induction t as [|c t (b & Ht & Hb)]; [by exists ""|].
  simpl. destruct (rstrip t) as [|d r] eqn:E.
  - simpl in Ht. subst b. destruct (is_space c) eqn:Hc.
    + exists (String c t). simpl. by rewrite Hc, Hb.
    + by exists t.
  - exists b. simpl. by rewrite Ht at 1.
Qed.

Lemma strip_split (t : string) :
  exists a b, t = (a ++ strip t ++ b)%string
              /\ all_space a = true /\ all_space b = true.
Proof.
  destruct (rstrip_split t) as (b & Ht & Hb).
  destruct (lstrip_split (rstrip t)) as (a & Hr & Ha).
  exists a, b. unfold strip. by rewrite <- string_app_assoc, <- Hr.
Qed.

Lemma is_space_not_upper (c : ascii) : is_space c = true -> is_upper c = false.
Proof.
  unfold is_space, is_upper. generalize (nat_of_ascii c). intros n H.
  rewrite !orb_true_iff, !andb_true_iff, !Nat.leb_le, !Nat.eqb_eq in H.
  apply orb_false_iff. split.
  - apply andb_false_iff. rewrite !Nat.leb_gt. lia.
  - rewrite (proj2 (Nat.leb_gt 192 n)); [done|]. lia.
Qed.

Lemma lower_all_space (a : string) : all_space a = true -> lower a = a.
Proof.
  induction a as [|c a IH]; simpl; [done|]. intros H.
  apply andb_true_iff in H as [Hc Ha]. rewrite (IH Ha).
  unfold lower_char. by rewrite (is_space_not_upper _ Hc).
Qed.

(** A needle that begins with a visible character is not found any
    earlier for blanks put before the text. *)
Lemma contains_after_blanks (k a h : string) :
  begins_solid k = true -> all_space a = true ->
  contains k (a ++ h) = contains k h.
Proof.
  intros Hk. induction a as [|c a IH]; simpl; [done|]. intros H.
  apply andb_true_iff in H as [Hc Ha]. rewrite (IH Ha).
  destruct k as [|k0 k]; [done|]. simpl in *.
  destruct (Ascii.eqb_spec k0 c) as [->|]; [|done].
  by rewrite Hc in Hk.
Qed.

Lemma ends_solid_not_all_space (k : string) :
  ends_solid k = true -> all_space k = false.
Proof.
  induction k as [|c k IH]; simpl; [done|]. intros H.
  destruct k as [|d k].
  - simpl. by destruct (is_space c).
  - rewrite (IH H). apply andb_false_r.
Qed.

Lemma starts_with_all_space (k b : string) :
  starts_with k b = true -> all_space b = true -> all_space k = true.
Proof.
  revert b. induction k as [|c k IH]; intros b; [done|].
  destruct b as [|d b]; simpl; [done|].
  destruct (Ascii.eqb_spec c d) as [->|]; [|done].
  intros Hs H. apply andb_true_iff in H as [Hd Hb].
  by rewrite Hd, (IH _ Hs Hb).
Qed.

Lemma starts_with_blanks (k b : string) :
  ends_solid k = true -> all_space b = true -> starts_with k b = false.
Proof.
  intros Hk Hb. destruct (starts_with k b) eqn:E; [|done].
  pose proof (ends_solid_not_all_space _ Hk) as Hn.
  by rewrite (starts_with_all_space _ _ E Hb) in Hn.
Qed.

Lemma starts_with_before_blanks (k x b : string) :
  ends_solid k = true -> all_space b = true ->
  starts_with k (x ++ b) = starts_with k x.
Proof.
  intros Hk Hb. revert x Hk. induction k as [|c k IH]; intros x Hk; [done|].
  destruct x as [|d x].
  - change ("" ++ b)%string with b.
    rewrite (starts_with_blanks _ _ Hk Hb). reflexivity.
  - simpl. destruct (Ascii.eqb c d); [|done].
    destruct k as [|e k]; [done|]. by apply IH.
Qed.

Lemma contains_blanks (k b : string) :
  ends_solid k = true -> all_space b = true -> contains k b = false.
Proof.
  intros Hk. induction b as [|c b IH]; intros Hb.
  - simpl. by rewrite (starts_with_blanks _ _ Hk).
  - simpl. rewrite (starts_with_blanks _ _ Hk Hb).
    simpl in Hb. apply andb_true_iff in Hb as [_ Hb]. by apply IH.
Qed.

(** A needle that ends with a visible character is not found any later
    for blanks put after the text. *)
Lemma contains_before_blanks (k x b : string) :
  ends_solid k = true -> all_space b = true ->
  contains k (x ++ b) = contains k x.
Proof.
  intros Hk Hb. induction x as [|d x IH].
  - simpl. rewrite (contains_blanks _ _ Hk Hb).
    destruct k; [done|reflexivity].
  - change (String d x ++ b)%string with (String d (x ++ b)).
    simpl. rewrite IH.
    change (String d (x ++ b)) with (String d x ++ b)%string.
    by rewrite (starts_with_before_blanks _ _ _ Hk Hb).
Qed.

Lemma contains_lower_strip (k t : string) :
  begins_solid k = true -> ends_solid k = true ->
  contains k (lower (strip t)) = contains k (lower t).
Proof.
  intros Hb He. destruct (strip_split t) as (a & b & Ht & Ha & Hb').
  rewrite Ht at 2. rewrite !lower_app, (lower_all_space _ Ha), (lower_all_space _ Hb').
  by rewrite contains_after_blanks, contains_before_blanks.
Qed.

End TextFacts.

(** ** The scorer *)
Section ScorerFacts.
Import Text Detector ScorerSpec.

Lemma occurs_ci_contains (key text : string) :
  occurs_ci key text <-> contains (lower key) (lower text) = true.
Proof.
  split.
  - intros (pre & mid & post & -> & Hmid).
    rewrite !lower_app, Hmid. apply contains_app.
  - intros H. destruct (contains_inv _ _ H) as (a & b & Hab).
    destruct (lower_split _ _ _ Hab) as (pre & rest & -> & _ & Hrest).
    destruct (lower_split _ _ _ Hrest) as (mid & post & -> & Hmid & _).
    by exists pre, mid, post.
Qed.

Lemma occurs_ci_within (key text a b : string) :
  occurs_ci key text -> occurs_ci key (a ++ text ++ b).
Proof.
  intros (pre & mid & post & -> & Hmid).
  exists (a ++ pre)%string, mid, (post ++ b)%string. split; [|done].
  by rewrite !string_app_assoc.
Qed.

Lemma occurs_ci_strip (key text : string) :
  occurs_ci key (strip text) -> occurs_ci key text.
Proof.
  intros H. destruct (strip_split text) as (a & b & Ht & _ & _).
  rewrite Ht. by apply occurs_ci_within.
Qed.

Lemma score_loop_acc (table : list (string * Z)) (text_lower : string) (acc : Z) :
  fold_left
    (fun score entry =>
       if contains (fst entry) text_lower then score + snd entry else score)
    table acc = acc + score_loop table text_lower.
Proof.
  unfold score_loop. revert acc.
  induction table as [|[k w] table IH]; intros acc; simpl; [lia|].
  rewrite IH, (IH (if contains k text_lower then 0 + w else 0)).
  destruct (contains k text_lower); lia.
Qed.

Lemma score_loop_cons key weight table text_lower :
  score_loop ((key, weight) :: table) text_lower =
  (if contains key text_lower then weight else 0) + score_loop table text_lower.
Proof.
  unfold score_loop at 1. simpl. rewrite score_loop_acc.
  by destruct (contains key text_lower).
Qed.

Lemma score_loop_weights_sum (table : list (string * Z)) (text : string) :
  lower_keys table = true ->
  weights_sum text table (score_loop table (lower text)).
Proof.
  induction table as [|[k w] table IH]; simpl; intros H.
  - constructor.
  - apply andb_true_iff in H as [Hk Ht]. apply String.eqb_eq in Hk. simpl in Hk.
    rewrite score_loop_cons.
    destruct (contains k (lower text)) eqn:E.
    + apply ws_match; [|by apply IH]. apply occurs_ci_contains. by rewrite Hk.
    + apply ws_skip; [|by apply IH].
      rewrite occurs_ci_contains, Hk, E. discriminate.
Qed.

Lemma weights_sum_unique (text : string) (table : list (string * Z)) (n m : Z) :
  weights_sum text table n -> weights_sum text table m -> n = m.
Proof.
  intros Hn. revert m.
  induction Hn as [|k w table n Hk _ IH|k w table n Hk _ IH];
    intros m Hm; inversion Hm; subst; try done.
  - f_equal. by apply IH.
  - by apply IH.
Qed.

Lemma weights_sum_none (text : string) (table : list (string * Z)) (n : Z) :
  (forall key weight, (key, weight) ∈ table -> ~ occurs_ci key text) ->
  weights_sum text table n -> n = 0.
Proof.
  intros Hnone Hn.
  induction Hn as [|k w table n Hk _ IH|k w table n Hk _ IH]; [done| |].
  - exfalso. apply (Hnone k w); [left | done].
  - apply IH. intros key weight Hin. apply (Hnone key weight). by right.
Qed.

Lemma detect_scam_score_loop (text : string) :
  detect_scam_score text = score_loop SCAM_SIGNALS (lower text).
Proof. by destruct text. Qed.

Lemma detect_scam_score_weights_sum (text : string) :
  weights_sum text SCAM_SIGNALS (detect_scam_score text).
Proof. rewrite detect_scam_score_loop. by apply score_loop_weights_sum. Qed.

Lemma score_loop_strip (table : list (string * Z)) (text : string) :
  solid_keys table = true ->
  score_loop table (lower (strip text)) = score_loop table (lower text).
Proof.
  induction table as [|[k w] table IH]; simpl; intros H; [done|].
  apply andb_true_iff in H as [Hk Ht]. apply andb_true_iff in Hk as [Hb He].
  rewrite !score_loop_cons, (IH Ht). by rewrite contains_lower_strip.
Qed.

(** Trimming a text does not change its score: no key begins or ends
    with whitespace. *)
Lemma detect_scam_score_strip (text : string) :
  detect_scam_score (strip text) = detect_scam_score text.
Proof. rewrite !detect_scam_score_loop. by apply score_loop_strip. Qed.

Lemma is_scam_strip (text : string) : is_scam (strip text) = is_scam text.
Proof. unfold is_scam. by rewrite detect_scam_score_strip. Qed.

End ScorerFacts.

(** ** One message on a session *)
Section SessionFacts.
Import Text Detector Main.
Context {regex : Extractor.Regex} (cfg : Config).

Lemma reporter_calls_app (a b : list Event) :
  reporter_calls (a ++ b) = (reporter_calls a + reporter_calls b)%nat.
Proof. unfold reporter_calls. by rewrite List.filter_app, length_app. Qed.

Lemma process_unfold session_id session message text history w :
  process cfg session_id session message text history w =
  let acc := accumulated session message text (utcnow w) in
  let calls := [Scorer text; Scorer text; Extractor text; ReplyGenerator text] in
  match Agent.generate_agent_reply text history (generated w) with
  | None => (acc, None, calls)
  | Some reply =>
      let count := Z.of_nat (List.length (messages acc)) in
      let fc := final_callback cfg acc session_id count w in
      (fc.1, Some (reply, count), (calls ++ fc.2)%list)
  end.
Proof.
  unfold process, accumulated. simpl.
  destruct (Agent.generate_agent_reply _ _ _); [|done].
  by destruct (final_callback _ _ _ _ _).
Qed.

Ltac unfold_accumulated :=
  unfold accumulated, intelligence_extraction, scam_detection, store_message,
    set_intel, set_scamDetected, set_scamScore, set_lastUpdated, set_messages;
  simpl.

Lemma accumulated_scamDetected session message text now :
  scamDetected (accumulated session message text now)
  = scamDetected session || is_scam text.
Proof.
  unfold_accumulated. by destruct (is_scam text), (scamDetected session).
Qed.

Lemma accumulated_callbackSent session message text now :
  callbackSent (accumulated session message text now) = callbackSent session.
Proof.
  unfold_accumulated. by destruct (is_scam text && negb (scamDetected session)).
Qed.

Lemma accumulated_messages session message text now :
  messages (accumulated session message text now)
  = (messages session ++ [message])%list.
Proof.
  unfold_accumulated. by destruct (is_scam text && negb (scamDetected session)).
Qed.

Lemma accumulated_scamScore session message text now :
  scamScore (accumulated session message text now)
  = scamScore session + detect_scam_score text.
Proof.
  unfold_accumulated. by destruct (is_scam text && negb (scamDetected session)).
Qed.

Lemma accumulated_intel session message text now :
  intel (accumulated session message text now)
  = merge_intel (intel session) (Extractor.extract_intelligence text).
Proof.
  unfold_accumulated. by destruct (is_scam text && negb (scamDetected session)).
Qed.

Lemma final_callback_calls session session_id count w :
  reporter_calls (final_callback cfg session session_id count w).2
  = if callback_due session count then 1%nat else 0%nat.
Proof.
  unfold final_callback, callback_due.
  destruct (scamDetected session && (8 <=? count) && negb (callbackSent session)).
  all: reflexivity.
Qed.

Lemma final_callback_callbackSent session session_id count w :
  callbackSent (final_callback cfg session session_id count w).1
  = callbackSent session || callback_due session count.
Proof.
  unfold final_callback, callback_due.
  destruct (scamDetected session && (8 <=? count) && negb (callbackSent session));
    simpl; [apply eq_sym, orb_true_r | apply eq_sym, orb_false_r].
Qed.

Lemma generate_agent_reply_some text history generated :
  is_Some (Agent.generate_agent_reply text history generated) <-> is_Some history.
Proof.
  unfold Agent.generate_agent_reply. destruct history as [h|].
  - split; [by eauto|]. intros _. destruct generated; [|by eauto].
    by destruct (_ && _ && _).
  - split; by intros [? ?].
Qed.

Lemma final_callback_scamDetected session session_id count w :
  scamDetected (final_callback cfg session session_id count w).1
  = scamDetected session.
Proof.
  unfold final_callback.
  by destruct (scamDetected session && (8 <=? count) && negb (callbackSent session)).
Qed.

Lemma final_callback_messages session session_id count w :
  messages (final_callback cfg session session_id count w).1 = messages session.
Proof.
  unfold final_callback.
  by destruct (scamDetected session && (8 <=? count) && negb (callbackSent session)).
Qed.

Lemma final_callback_intel session session_id count w :
  intel (final_callback cfg session session_id count w).1 = intel session.
Proof.
  unfold final_callback.
  by destruct (scamDetected session && (8 <=? count) && negb (callbackSent session)).
Qed.

Lemma final_callback_scamScore session session_id count w :
  scamScore (final_callback cfg session session_id count w).1 = scamScore session.
Proof.
  unfold final_callback.
  by destruct (scamDetected session && (8 <=? count) && negb (callbackSent session)).
Qed.

(** The session a request leaves behind: lines 119-137 always, lines
    146-163 when the reply generator returned. *)
Lemma process_session session_id session message text history w :
  (process cfg session_id session message text history w).1.1 =
  let acc := accumulated session message text (utcnow w) in
  match history with
  | None => acc
  | Some _ =>
      (final_callback cfg acc session_id
         (Z.of_nat (List.length (messages acc))) w).1
  end.
Proof.
  rewrite process_unfold. cbv zeta.
  destruct (Agent.generate_agent_reply text history (generated w)) as [reply|] eqn:E.
  - destruct history as [h|]; [done|].
    by apply mk_is_Some, generate_agent_reply_some in E; destruct E.
  - destruct history as [h|]; [|done].
    assert (is_Some (Agent.generate_agent_reply text (Some h) (generated w))) as [? ?]
      by (by apply generate_agent_reply_some). congruence.
Qed.

Lemma process_events session_id session message text history w :
  (process cfg session_id session message text history w).2 =
  let acc := accumulated session message text (utcnow w) in
  let calls := [Scorer text; Scorer text; Extractor text; ReplyGenerator text] in
  match history with
  | None => calls
  | Some _ =>
      (calls ++ (final_callback cfg acc session_id
                   (Z.of_nat (List.length (messages acc))) w).2)%list
  end.
Proof.
  rewrite process_unfold. cbv zeta.
  destruct (Agent.generate_agent_reply text history (generated w)) as [reply|] eqn:E.
  - destruct history as [h|]; [done|].
    by apply mk_is_Some, generate_agent_reply_some in E; destruct E.
  - destruct history as [h|]; [|done].
    assert (is_Some (Agent.generate_agent_reply text (Some h) (generated w))) as [? ?]
      by (by apply generate_agent_reply_some). congruence.
Qed.

Lemma process_scamDetected session_id session message text history w :
  scamDetected (process cfg session_id session message text history w).1.1
  = scamDetected session || is_scam text.
Proof.
  rewrite process_session. cbv zeta. destruct history.
  - by rewrite final_callback_scamDetected, accumulated_scamDetected.
  - apply accumulated_scamDetected.
Qed.

Lemma process_messages session_id session message text history w :
  messages (process cfg session_id session message text history w).1.1
  = (messages session ++ [message])%list.
Proof.
  rewrite process_session. cbv zeta. destruct history.
  - by rewrite final_callback_messages, accumulated_messages.
  - apply accumulated_messages.
Qed.

Lemma process_intel session_id session message text history w :
  intel (process cfg session_id session message text history w).1.1
  = merge_intel (intel session) (Extractor.extract_intelligence text).
Proof.
  rewrite process_session. cbv zeta. destruct history.
  - by rewrite final_callback_intel, accumulated_intel.
  - apply accumulated_intel.
Qed.

Lemma process_scamScore session_id session message text history w :
  scamScore (process cfg session_id session message text history w).1.1
  = scamScore session + detect_scam_score text.
Proof.
  rewrite process_session. cbv zeta. destruct history.
  - by rewrite final_callback_scamScore, accumulated_scamScore.
  - apply accumulated_scamScore.
Qed.

Lemma process_calls session_id session message text history w :
  reporter_calls (process cfg session_id session message text history w).2
  = if reports session text history then 1%nat else 0%nat.
Proof.
  rewrite process_events. cbv zeta. destruct history as [h|]; [|done].
  rewrite reporter_calls_app, final_callback_calls.
  change (reporter_calls [Scorer text; Scorer text; Extractor text; ReplyGenerator text])
    with 0%nat.
  rewrite Nat.add_0_l. unfold callback_due, reports.
  by rewrite accumulated_scamDetected, accumulated_callbackSent,
    accumulated_messages, length_app, Nat2Z.inj_add.
Qed.

Lemma process_callbackSent session_id session message text history w :
  callbackSent (process cfg session_id session message text history w).1.1
  = callbackSent session || reports session text history.
Proof.
  rewrite process_session. cbv zeta. destruct history as [h|].
  - rewrite final_callback_callbackSent. unfold callback_due, reports.
    by rewrite accumulated_scamDetected, accumulated_callbackSent,
      accumulated_messages, length_app, Nat2Z.inj_add.
  - rewrite accumulated_callbackSent. apply eq_sym, orb_false_r.
Qed.

Lemma handle_calls session_id session step :
  reporter_calls (handle cfg session_id session step).2
  = if reports session (strip (Models.text (step_message step))) (step_history step)
    then 1%nat else 0%nat.
Proof. apply process_calls. Qed.


Lemma reports_latched session text history :
  callbackSent session = true -> reports session text history = false.
Proof.
  intros H. unfold reports. destruct history; [|done].
  rewrite H. apply andb_false_r.
Qed.

(** C2: a message whose own score reaches the threshold 4 leaves
    scamDetected true, whatever the cumulative score of the session; a
    message whose own score is below the threshold leaves the flag as it
    was, however large the cumulative score. *)
Theorem single_message_latches (session_id : string) (session : Session)
    (step : Step) :
  let text := Models.text (step_message step) in
  let after := (handle cfg session_id session step).1.1 in
  THRESHOLD = 4
  /\ (THRESHOLD <= detect_scam_score text -> scamDetected after = true)
  /\ (detect_scam_score text < THRESHOLD ->
        scamDetected after = scamDetected session).
Proof.
  intros text after. subst after. unfold handle.
  rewrite process_scamDetected, is_scam_strip. fold text. unfold is_scam.
  split; [done|]. split; intros H.
  - apply Z.leb_le in H. rewrite H. apply orb_true_r.
  - apply Z.leb_gt in H. rewrite H. apply orb_false_r.
Qed.

End SessionFacts.

(** ** The intelligence bundle *)
Section IntelFacts.
Import Text Main.
Context {regex : Extractor.Regex} (cfg : Config).

Lemma elem_of_list_set (x : string) (l : list string) :
  x ∈ Extractor.list_set l <-> x ∈ l.
Proof. unfold Extractor.list_set. by rewrite elem_of_elements, elem_of_list_to_set. Qed.

Lemma NoDup_list_set (l : list string) : NoDup (Extractor.list_set l).
Proof. unfold Extractor.list_set. apply NoDup_elements. Qed.

Lemma merge_intel_cons (stored : gmap string (list string)) key vals extracted :
  merge_intel stored ((key, vals) :: extracted) =
  merge_intel
    (match stored !! key with
     | Some old => <[key := Extractor.list_set (old ++ vals)%list]> stored
     | None => stored
     end) extracted.
Proof. reflexivity. Qed.

Lemma merge_intel_dom (stored : gmap string (list string)) extracted :
  dom (merge_intel stored extracted) = dom stored.
Proof.
  revert stored. induction extracted as [|[key vals] extracted IH]; intros stored;
    [done|].
  rewrite merge_intel_cons, IH. destruct (stored !! key) eqn:E; [|done].
  rewrite dom_insert_L. apply elem_of_dom_2 in E.
  by apply subseteq_union_1_L, singleton_subseteq_l.
Qed.

Lemma merge_intel_lookup_None (stored : gmap string (list string)) extracted key :
  stored !! key = None -> merge_intel stored extracted !! key = None.
Proof.
  intros E. apply not_elem_of_dom. rewrite merge_intel_dom. by apply not_elem_of_dom.
Qed.



Lemma extract_intelligence_keys (text : string) :
  (Extractor.extract_intelligence text).*1 = intel_fields.
Proof. unfold Extractor.extract_intelligence. by destruct (is_empty text). Qed.




Lemma new_session_fields (session_id : string) (now : Z) :
  dom (intel (new_session session_id now)) = list_to_set intel_fields.
Proof. simpl. rewrite !dom_insert_L, dom_empty_L. reflexivity. Qed.

Lemma handle_intel session_id session step :
  intel (handle cfg session_id session step).1.1
  = merge_intel (intel session)
      (Extractor.extract_intelligence (strip (Models.text (step_message step)))).
Proof. apply process_intel. Qed.


End IntelFacts.

(** ** The request handler *)
Section HandlerFacts.
Import Text Main.
Context {regex : Extractor.Regex} (cfg : Config).

Lemma chat_unauthorized st body x_api_key w :
  x_api_key <> Some (API_KEY cfg) ->
  chat cfg st body x_api_key w = (st, inl (HTTPError 401 "Invalid API Key"), []).
Proof. intros Hk. unfold chat. by rewrite bool_decide_eq_false_2. Qed.

Lemma chat_empty_text st body w :
  is_empty (strip (Models.text (Models.message body))) = true ->
  chat cfg st body (Some (API_KEY cfg)) w
  = (st, inl (HTTPError 400 "Message text is required"), []).
Proof. intros Ht. unfold chat. by rewrite bool_decide_eq_true_2, Ht. Qed.

(** A request that passes both checks, spelled out on the session it
    resolved. *)
Lemma chat_handled st body w :
  is_empty (strip (Models.text (Models.message body))) = false ->
  chat cfg st body (Some (API_KEY cfg)) w =
  let session_id := Models.sessionId body in
  let found := resolve st w session_id in
  let done :=
    process cfg session_id found.1 (Models.message body)
      (strip (Models.text (Models.message body)))
      (Models.conversationHistory body) w in
  match done.1.2 with
  | None =>
      (match found.2 with
       | FromSessions =>
           {| redis := redis st;
              sessions := <[session_id := done.1.1]> (sessions st) |}
       | _ => st
       end,
       inl (HTTPError 500 "Internal server error"),
       GetSession session_id :: done.2)
  | Some (reply, message_count) =>
      let saved :=
        RedisStore.save_session (redis st) (redis_save_fault w)
          session_id done.1.1 in
      ({| redis := saved.1;
          sessions := <[session_id := done.1.1]> (sessions st) |},
       inr {| Models.status := "success";
              Models.reply := reply;
              Models.scamDetected := scamDetected done.1.1;
              Models.scamScore := scamScore done.1.1;
              Models.messageCount := message_count |},
       (GetSession session_id :: done.2
          ++ [SaveSession session_id done.1.1 saved.2;
              SessionsWrite session_id done.1.1])%list)
  end.
Proof.
  intros Ht. unfold chat. rewrite bool_decide_eq_true_2, Ht by done. cbv zeta.
  cbn [negb]. destruct (resolve st w (Models.sessionId body)) as [session from].
  cbn [fst snd].
  destruct (process cfg _ session _ _ _ w) as [[session' [[reply count]|]] calls];
    cbn [fst snd]; [|done].
  by destruct (RedisStore.save_session _ _ _ _).
Qed.

Lemma process_reply session_id session message text history w :
  (process cfg session_id session message text history w).1.2 =
  match Agent.generate_agent_reply text history (generated w) with
  | None => None
  | Some reply =>
      Some (reply, Z.of_nat (List.length (messages session)) + 1)
  end.
Proof.
  rewrite process_unfold. cbv zeta.
  destruct (Agent.generate_agent_reply text history (generated w)); [|done].
  cbn [fst snd]. by rewrite accumulated_messages, length_app, Nat2Z.inj_add.
Qed.

Lemma chat_answer_stored st body x_api_key w answer :
  (chat cfg st body x_api_key w).1.2 = inr answer ->
  let session_id := Models.sessionId body in
  let written :=
    (process cfg session_id (resolve st w session_id).1 (Models.message body)
       (strip (Models.text (Models.message body)))
       (Models.conversationHistory body) w).1.1 in
  sessions (chat cfg st body x_api_key w).1.1 !! session_id = Some written
  /\ Models.scamDetected answer = scamDetected written
  /\ Models.scamScore answer = scamScore written
  /\ Models.messageCount answer = Z.of_nat (List.length (messages written)).
Proof.
  destruct (decide (x_api_key = Some (API_KEY cfg))) as [->|Hk];
    [|by rewrite chat_unauthorized].
  destruct (is_empty (strip (Models.text (Models.message body)))) eqn:Ht;
    [by rewrite chat_empty_text|].
  rewrite chat_handled by done. cbv zeta.
  rewrite process_reply, process_messages.
  destruct (Agent.generate_agent_reply _ _ _) as [reply|]; [|done].
  cbn [fst snd]. intros [= <-]. cbn.
  rewrite lookup_insert_eq, length_app, Nat2Z.inj_add. done.
Qed.

Lemma chat_answered_inv st body x_api_key w answer :
  (chat cfg st body x_api_key w).1.2 = inr answer ->
  x_api_key = Some (API_KEY cfg)
  /\ is_empty (strip (Models.text (Models.message body))) = false
  /\ exists reply,
       Agent.generate_agent_reply (strip (Models.text (Models.message body)))
         (Models.conversationHistory body) (generated w) = Some reply
       /\ Models.reply answer = reply
       /\ Models.status answer = "success".
Proof.
  destruct (decide (x_api_key = Some (API_KEY cfg))) as [->|Hk];
    [|by rewrite chat_unauthorized].
  destruct (is_empty (strip (Models.text (Models.message body)))) eqn:Ht;
    [by rewrite chat_empty_text|].
  rewrite chat_handled by done. cbv zeta. rewrite process_reply.
  destruct (Agent.generate_agent_reply _ _ _) as [reply|]; [|done].
  cbn [fst snd]. intros [= <-]. split; [done|]. split; [done|]. by exists reply.
Qed.

Lemma chat_save_fault st body x_api_key w fault :
  (chat cfg st body x_api_key (set_redis_save_fault w fault)).1.2
  = (chat cfg st body x_api_key w).1.2.
Proof.
  destruct (decide (x_api_key = Some (API_KEY cfg))) as [->|Hk];
    [|by rewrite !chat_unauthorized].
  destruct (is_empty (strip (Models.text (Models.message body)))) eqn:Ht;
    [by rewrite !chat_empty_text|].
  rewrite !chat_handled by done. cbv zeta.
  change (resolve st (set_redis_save_fault w fault) (Models.sessionId body))
    with (resolve st w (Models.sessionId body)).
  change (process cfg ?a ?b ?c ?d ?e (set_redis_save_fault w fault))
    with (process cfg a b c d e w).
  by destruct (process cfg _ _ _ _ _ w).1.2 as [[reply count]|].
Qed.

(** C5: the answer to a request does not depend on whether the save to
    the durable store succeeds. For a request with the right secret, a
    text that is not empty after trimming and a history, the save may
    fail: the answer is still the success response computed from the
    session in memory, and that session is kept in the process-wide
    dict. *)
Theorem save_failure_absorbed st body x_api_key w :
  (chat cfg st body x_api_key (set_redis_save_fault w true)).1.2
  = (chat cfg st body x_api_key (set_redis_save_fault w false)).1.2
  /\ (x_api_key = Some (API_KEY cfg) ->
      is_empty (strip (Models.text (Models.message body))) = false ->
      is_Some (Models.conversationHistory body) ->
      let session_id := Models.sessionId body in
      let session :=
        (process cfg session_id (resolve st w session_id).1 (Models.message body)
           (strip (Models.text (Models.message body)))
           (Models.conversationHistory body) w).1.1 in
      exists reply,
        (chat cfg st body x_api_key (set_redis_save_fault w true)).1.2
        = inr {| Models.status := "success";
                 Models.reply := reply;
                 Models.scamDetected := scamDetected session;
                 Models.scamScore := scamScore session;
                 Models.messageCount := Z.of_nat (List.length (messages session)) |}
        /\ sessions (chat cfg st body x_api_key (set_redis_save_fault w true)).1.1
             !! session_id = Some session).
Proof.
  split; [by rewrite !chat_save_fault|].
  intros -> Ht Hh session_id session.
  apply (generate_agent_reply_some
           (strip (Models.text (Models.message body))) _ (generated w)) in Hh
    as [reply Hreply].
  exists reply. rewrite chat_handled by done. cbv zeta.
  change (resolve st (set_redis_save_fault w true) (Models.sessionId body))
    with (resolve st w (Models.sessionId body)).
  change (process cfg ?a ?b ?c ?d ?e (set_redis_save_fault w true))
    with (process cfg a b c d e w).
  rewrite process_reply, Hreply. cbn [fst snd].
  subst session session_id. rewrite process_messages, length_app, Nat2Z.inj_add.
  split; [done|]. cbn. apply lookup_insert_eq.
Qed.

(** C6: a request whose secret does not match is refused as unauthorized
    (401), and one whose text is empty after trimming is refused too, as
    a validation error (400) when the secret matches, the secret being
    checked first. Either way the stores are left as they were and no
    call to the scorer, the extractor, the reporter or a store is made. *)
Theorem invalid_requests_rejected st body x_api_key w :
  (x_api_key <> Some (API_KEY cfg) ->
   chat cfg st body x_api_key w
   = (st, inl (HTTPError 401 "Invalid API Key"), []))
  /\ (is_empty (strip (Models.text (Models.message body))) = true ->
      (chat cfg st body x_api_key w).1.1 = st
      /\ (chat cfg st body x_api_key w).2 = []
      /\ (exists refusal, (chat cfg st body x_api_key w).1.2 = inl refusal)
      /\ (x_api_key = Some (API_KEY cfg) ->
          (chat cfg st body x_api_key w).1.2
          = inl (HTTPError 400 "Message text is required"))).
Proof.
  split; [apply chat_unauthorized|]. intros Ht.
  destruct (decide (x_api_key = Some (API_KEY cfg))) as [->|Hk].
  - rewrite chat_empty_text by done. cbn. repeat split; by eauto.
  - rewrite chat_unauthorized by done. cbn. repeat split; by eauto.
Qed.

End HandlerFacts.

(** ** Sequences of requests *)
Section TraceFacts.
Import Text Main.
Context {regex : Extractor.Regex} (cfg : Config).

Lemma reports_for_app session_id (a b : list Event) :
  reports_for session_id (a ++ b)
  = (reports_for session_id a + reports_for session_id b)%nat.
Proof. unfold reports_for. by rewrite List.filter_app, length_app. Qed.

Lemma final_callback_reports_for sid session session_id count w :
  reports_for sid (final_callback cfg session session_id count w).2
  = if bool_decide (session_id = sid)
    then reporter_calls (final_callback cfg session session_id count w).2
    else 0%nat.
Proof.
  unfold final_callback.
  destruct (scamDetected session && (8 <=? count) && negb (callbackSent session)).
  - cbn. by destruct (bool_decide _).
  - by destruct (bool_decide _).
Qed.

Lemma process_reports_for sid session_id session message text history w :
  reports_for sid (process cfg session_id session message text history w).2
  = if bool_decide (session_id = sid)
    then reporter_calls (process cfg session_id session message text history w).2
    else 0%nat.
Proof.
  rewrite process_events. cbv zeta. destruct history as [h|].
  - rewrite reports_for_app, reporter_calls_app, final_callback_reports_for.
    by destruct (bool_decide _).
  - by destruct (bool_decide _).
Qed.

(** The reports a request makes for [sid], and the stores it leaves. *)
Lemma chat_reports_for sid st body x_api_key w :
  reports_for sid (chat cfg st body x_api_key w).2 = 0%nat
  \/ (x_api_key = Some (API_KEY cfg)
      /\ is_empty (strip (Models.text (Models.message body))) = false
      /\ Models.sessionId body = sid
      /\ reports_for sid (chat cfg st body x_api_key w).2
         = reporter_calls
             (process cfg sid (resolve st w sid).1 (Models.message body)
                (strip (Models.text (Models.message body)))
                (Models.conversationHistory body) w).2).
Proof.
  destruct (decide (x_api_key = Some (API_KEY cfg))) as [->|Hk];
    [|left; by rewrite chat_unauthorized].
  destruct (is_empty (strip (Models.text (Models.message body)))) eqn:Ht;
    [left; by rewrite chat_empty_text|].
  assert (reports_for sid (chat cfg st body (Some (API_KEY cfg)) w).2
          = reports_for sid
              (process cfg (Models.sessionId body)
                 (resolve st w (Models.sessionId body)).1 (Models.message body)
                 (strip (Models.text (Models.message body)))
                 (Models.conversationHistory body) w).2) as Heq.
  { rewrite chat_handled by done. cbv zeta.
    destruct (process cfg _ _ _ _ _ w).1.2 as [[reply count]|]; cbn [snd]; [|done].
    change (GetSession ?a :: ?l ++ ?r)%list with ((GetSession a :: l) ++ r)%list.
    rewrite reports_for_app. cbn. unfold reports_for. cbn. lia. }
  rewrite Heq, process_reports_for.
  destruct (bool_decide_reflect (Models.sessionId body = sid)) as [<-|Hne];
    [right; done | by left].
Qed.

Lemma save_session_connected r fault session_id data :
  RedisStore.connected (RedisStore.save_session r fault session_id data).1
  = RedisStore.connected r.
Proof.
  unfold RedisStore.save_session.
  destruct (RedisStore.connected r) eqn:Hc, fault; cbn; congruence.
Qed.

Lemma save_session_other r fault session_id data key :
  key <> session_id ->
  RedisStore.db (RedisStore.save_session r fault session_id data).1 !! key
  = RedisStore.db r !! key.
Proof.
  intros Hne. unfold RedisStore.save_session.
  destruct (RedisStore.connected r), fault; cbn; try done.
  by rewrite lookup_insert_ne.
Qed.

Lemma save_session_saved r session_id data :
  RedisStore.connected r = true ->
  RedisStore.db (RedisStore.save_session r false session_id data).1 !! session_id
  = Some data.
Proof.
  intros Hc. unfold RedisStore.save_session. rewrite Hc. cbn.
  apply lookup_insert_eq.
Qed.

Lemma resolve_latched st w sid :
  latched st sid -> callbackSent (resolve st w sid).1 = true.
Proof.
  intros [Hdb (session & Hmem & Hsent)]. unfold resolve, RedisStore.get_session.
  destruct (RedisStore.connected (redis st)) eqn:Hc; cbn.
  - destruct (redis_get_fault w); [by rewrite Hmem|].
    destruct (RedisStore.db (redis st) !! sid) as [found|] eqn:Hfound.
    + by apply Hdb.
    + by rewrite Hmem.
  - by rewrite Hmem.
Qed.

(** The stores a handled request leaves, at the request's own id: the
    processed session in [sessions] whenever a copy was there or the
    request was answered, and in the durable store when the save went
    through. *)
Lemma chat_handled_stores st body w :
  is_empty (strip (Models.text (Models.message body))) = false ->
  redis_save_fault w = false ->
  let session_id := Models.sessionId body in
  let after := (chat cfg st body (Some (API_KEY cfg)) w).1.1 in
  let written :=
    (process cfg session_id (resolve st w session_id).1 (Models.message body)
       (strip (Models.text (Models.message body)))
       (Models.conversationHistory body) w).1.1 in
  RedisStore.connected (redis after) = RedisStore.connected (redis st)
  /\ (forall key, key <> session_id ->
                  RedisStore.db (redis after) !! key = RedisStore.db (redis st) !! key
                  /\ sessions after !! key = sessions st !! key)
  /\ (RedisStore.db (redis after) !! session_id
        = RedisStore.db (redis st) !! session_id
      \/ RedisStore.db (redis after) !! session_id = Some written)
  /\ (sessions after !! session_id = sessions st !! session_id
      \/ sessions after !! session_id = Some written)
  /\ (is_Some (Models.conversationHistory body) ->
      sessions after !! session_id = Some written
      /\ (RedisStore.connected (redis st) = true ->
          RedisStore.db (redis after) !! session_id = Some written)).
Proof.
  intros Ht Hsave session_id after written. subst after.
  rewrite chat_handled by done. cbv zeta. fold session_id. rewrite Hsave.
  rewrite process_reply. fold written.
  destruct (Agent.generate_agent_reply _ _ (generated w)) as [reply|] eqn:Hreply.
  - cbn [fst snd redis sessions].
    split; [apply save_session_connected|].
    split; [intros key Hne; split;
            [by apply save_session_other | by rewrite lookup_insert_ne]|].
    split.
    { destruct (RedisStore.connected (redis st)) eqn:Hc.
      - right. by apply save_session_saved.
      - left. unfold RedisStore.save_session. by rewrite Hc. }
    split; [right; apply lookup_insert_eq|].
    intros _. split; [apply lookup_insert_eq|]. apply save_session_saved.
  - assert (Models.conversationHistory body = None) as Hnone.
    { destruct (Models.conversationHistory body) as [h|] eqn:Hh; [|done].
      assert (is_Some (Agent.generate_agent_reply
                         (strip (Models.text (Models.message body))) (Some h)
                         (generated w))) as [? ?]
        by (by apply generate_agent_reply_some). congruence. }
    cbn [fst snd]. destruct (resolve st w session_id).2; cbn [redis sessions].
    + split; [done|]. split; [by intros key Hne|].
      split; [by left|]. split; [by left|]. intros [? ?]. congruence.
    + split; [done|]. split; [intros key Hne; by rewrite lookup_insert_ne|].
      split; [by left|]. split; [right; apply lookup_insert_eq|].
      intros [? ?]. congruence.
    + split; [done|]. split; [by intros key Hne|].
      split; [by left|]. split; [by left|]. intros [? ?]. congruence.
Qed.

Lemma chat_keeps_latched sid st body x_api_key w :
  redis_save_fault w = false -> latched st sid ->
  latched (chat cfg st body x_api_key w).1.1 sid
  /\ reports_for sid (chat cfg st body x_api_key w).2 = 0%nat.
Proof.
  intros Hsave Hl.
  destruct (decide (x_api_key = Some (API_KEY cfg))) as [->|Hk];
    [|by rewrite chat_unauthorized].
  destruct (is_empty (strip (Models.text (Models.message body)))) eqn:Ht;
    [by rewrite chat_empty_text|].
  destruct (chat_handled_stores st body w Ht Hsave)
    as (Hconn & Hother & Hdb & Hmem & _).
  destruct (decide (Models.sessionId body = sid)) as [Hsid|Hne].
  - subst sid. pose proof (resolve_latched _ w _ Hl) as Hsent.
    set (written := (process cfg _ _ _ _ _ w).1.1) in *.
    assert (callbackSent written = true) as Hw
      by (subst written; by rewrite process_callbackSent, Hsent).
    split.
    + destruct Hl as [Hl1 (session & Hs & Hs')]. split.
      * rewrite Hconn. intros Hc session' Hlook.
        destruct Hdb as [Hdb|Hdb]; rewrite Hdb in Hlook.
        -- by apply (Hl1 Hc).
        -- by injection Hlook as <-.
      * destruct Hmem as [Hmem|Hmem]; rewrite Hmem; by eauto.
    + destruct (chat_reports_for (Models.sessionId body) st body
                  (Some (API_KEY cfg)) w) as [?|(_ & _ & _ & ->)]; [done|].
      by rewrite process_calls, reports_latched.
  - split.
    + destruct (Hother sid) as [Hd Hm]; [done|].
      destruct Hl as [Hl1 Hl2]. split.
      * rewrite Hconn, Hd. exact Hl1.
      * by rewrite Hm.
    + destruct (chat_reports_for sid st body (Some (API_KEY cfg)) w)
        as [?|(_ & _ & ? & _)]; done.
Qed.

Lemma chat_report_latches sid st body x_api_key w :
  redis_save_fault w = false ->
  (reports_for sid (chat cfg st body x_api_key w).2 <= 1)%nat
  /\ (reports_for sid (chat cfg st body x_api_key w).2 = 1%nat ->
      latched (chat cfg st body x_api_key w).1.1 sid).
Proof.
  intros Hsave.
  destruct (chat_reports_for sid st body x_api_key w)
    as [->|(-> & Ht & <- & Heq)]; [split; [lia|done]|].
  rewrite Heq, process_calls.
  destruct (reports _ _ _) eqn:Hreports; [|split; [lia|done]].
  split; [lia|]. intros _.
  assert (is_Some (Models.conversationHistory body)) as Hh.
  { unfold reports in Hreports. by destruct (Models.conversationHistory body). }
  destruct (chat_handled_stores st body w Ht Hsave)
    as (Hconn & _ & _ & _ & Hdone).
  destruct (Hdone Hh) as [Hmem Hdb].
  set (written := (process cfg _ _ _ _ _ w).1.1) in *.
  assert (callbackSent written = true) as Hw.
  { subst written. rewrite process_callbackSent, Hreports. apply orb_true_r. }
  split.
  - rewrite Hconn. intros Hc session Hlook. rewrite (Hdb Hc) in Hlook.
    by injection Hlook as <-.
  - by eauto.
Qed.

Lemma serve_cons st r rest :
  serve cfg st (r :: rest) =
  let first := chat cfg st (request_body r) (request_key r) (request_world r) in
  ((serve cfg first.1.1 rest).1, (first.2 ++ (serve cfg first.1.1 rest).2)%list).
Proof.
  cbn [serve]. cbv zeta.
  destruct (chat cfg st (request_body r) (request_key r) (request_world r))
    as [[st' answer] events].
  cbn [fst snd]. by destruct (serve cfg st' rest).
Qed.

Lemma serve_latched sid requests :
  Forall (fun r => redis_save_fault (request_world r) = false) requests ->
  forall st, latched st sid -> reports_for sid (serve cfg st requests).2 = 0%nat.
Proof.
  induction 1 as [|r rest Hr _ IH]; intros st Hl; [done|].
  rewrite serve_cons. cbv zeta. cbn [snd]. rewrite reports_for_app.
  destruct (chat_keeps_latched sid st (request_body r) (request_key r)
              (request_world r) Hr Hl) as [Hl' ->].
  by apply IH.
Qed.

(** X22: at the handler, over any sequence of requests, for any session ids,
    secrets, texts and histories and from any state of the stores: as long
    as no save to the durable store fails, at most one report is made for a
    session id. Without a durable store no save can fail. The hypothesis
    is needed: a save that fails leaves the older copy in the durable
    store, and line 97 reads that store first. *)
Theorem serve_reports_once (sid : string) (requests : list Request) :
  Forall (fun r => redis_save_fault (request_world r) = false) requests ->
  forall st, (reports_for sid (serve cfg st requests).2 <= 1)%nat.
Proof.
  induction 1 as [|r rest Hr Hrest IH]; intros st; [unfold reports_for; simpl; lia|].
  rewrite serve_cons. cbv zeta. cbn [snd]. rewrite reports_for_app.
  destruct (chat_report_latches sid st (request_body r) (request_key r)
              (request_world r) Hr) as [Hle Hlatch].
  destruct (decide (reports_for sid
                      (chat cfg st (request_body r) (request_key r)
                         (request_world r)).2 = 1%nat)) as [Hone|Hzero].
  - rewrite (serve_latched sid rest Hrest _ (Hlatch Hone)). lia.
  - specialize (IH (chat cfg st (request_body r) (request_key r)
                      (request_world r)).1.1). lia.
Qed.

End TraceFacts.

(** ** Sessions in the stores, over sequences of requests *)
Section StoreFacts.
Import Text Detector Main.
Context {regex : Extractor.Regex} (cfg : Config).

Lemma resolve_cases st w sid :
  (resolve st w sid).1 = new_session sid (utcnow w)
  \/ RedisStore.db (redis st) !! sid = Some (resolve st w sid).1
  \/ sessions st !! sid = Some (resolve st w sid).1.
Proof.
  unfold resolve, RedisStore.get_session.
  destruct (negb (RedisStore.connected (redis st)));
    [|destruct (redis_get_fault w);
      [|destruct (RedisStore.db (redis st) !! sid) eqn:Hdb;
        [right; left; done|]]].
  all: destruct (sessions st !! sid) eqn:Hmem; cbn [fst];
    [right; right; done | left; done].
Qed.

Lemma resolve_every_copy (P : Session -> Prop) st w sid :
  every_copy P st sid -> P (new_session sid (utcnow w)) ->
  P (resolve st w sid).1.
Proof.
  intros [Hdb Hmem] Hnew.
  destruct (resolve_cases st w sid) as [->|[H|H]];
    [done | by apply Hdb | by apply Hmem].
Qed.


(** What a request can do to the stores under one key, whatever it
    carries and whatever fails: leave it, or put there the session it
    processed. *)
Lemma chat_store_cases st body x_api_key w key :
  let after := (chat cfg st body x_api_key w).1.1 in
  (RedisStore.db (redis after) !! key = RedisStore.db (redis st) !! key
   \/ (key = Models.sessionId body
       /\ RedisStore.db (redis after) !! key = Some (processed cfg st body w)))
  /\ (sessions after !! key = sessions st !! key
      \/ (key = Models.sessionId body
          /\ sessions after !! key = Some (processed cfg st body w))).
Proof.
  cbv zeta.
  destruct (decide (x_api_key = Some (API_KEY cfg))) as [->|Hk];
    [|rewrite chat_unauthorized by done; split; by left].
  destruct (is_empty (strip (Models.text (Models.message body)))) eqn:Ht;
    [rewrite chat_empty_text by done; split; by left|].
  rewrite chat_handled by done. cbv zeta.
  destruct (process cfg _ _ _ _ _ w).1.2 as [[reply count]|]; cbn [fst snd].
  - cbn [redis sessions]. split.
    + unfold RedisStore.save_session.
      destruct (negb (RedisStore.connected (redis st))); [by left|].
      destruct (redis_save_fault w); [by left|]. cbn [fst RedisStore.db].
      destruct (decide (key = Models.sessionId body)) as [->|Hne].
      * right. split; [done|]. apply lookup_insert_eq.
      * left. by apply lookup_insert_ne.
    + destruct (decide (key = Models.sessionId body)) as [->|Hne].
      * right. split; [done|]. apply lookup_insert_eq.
      * left. by apply lookup_insert_ne.
  - destruct (resolve st w (Models.sessionId body)).2; cbn [redis sessions];
      try (split; by left).
    split; [by left|].
    destruct (decide (key = Models.sessionId body)) as [->|Hne].
    + right. split; [done|]. apply lookup_insert_eq.
    + left. by apply lookup_insert_ne.
Qed.

Lemma chat_every_copy (P Q : Session -> Prop) sid st body x_api_key w :
  every_copy P st sid ->
  (forall session, P session -> Q session) ->
  (Models.sessionId body = sid -> Q (processed cfg st body w)) ->
  every_copy Q (chat cfg st body x_api_key w).1.1 sid.
Proof.
  intros [Hdb Hmem] HPQ Hw.
  destruct (chat_store_cases st body x_api_key w sid) as [Hd Hm].
  split; intros session Hlook.
  - destruct Hd as [Hd|[Hsid Hd]]; rewrite Hd in Hlook.
    + by apply HPQ, Hdb.
    + injection Hlook as <-. by apply Hw.
  - destruct Hm as [Hm|[Hsid Hm]]; rewrite Hm in Hlook.
    + by apply HPQ, Hmem.
    + injection Hlook as <-. by apply Hw.
Qed.

(** A property that new sessions have and that handling a message keeps
    holds of every stored session after a request, whatever fails. *)
Lemma chat_all_stored (P : Session -> Prop) st body x_api_key w :
  (forall sid now, P (new_session sid now)) ->
  (forall sid session step, P session -> P (handle cfg sid session step).1.1) ->
  all_stored P st -> all_stored P (chat cfg st body x_api_key w).1.1.
Proof.
  intros Hnew Hkeep Hall sid.
  apply (chat_every_copy P P); [apply Hall | done |]. intros _.
  apply (Hkeep (Models.sessionId body) (resolve st w (Models.sessionId body)).1
           {| step_message := Models.message body;
              step_history := Models.conversationHistory body;
              step_world := w |}).
  apply resolve_every_copy; [apply Hall | apply Hnew].
Qed.

Lemma serve_all_stored (P : Session -> Prop) requests :
  (forall sid now, P (new_session sid now)) ->
  (forall sid session step, P session -> P (handle cfg sid session step).1.1) ->
  forall st, all_stored P st -> all_stored P (serve cfg st requests).1.
Proof.
  intros Hnew Hkeep. induction requests as [|r rest IH]; intros st Hall; [done|].
  rewrite serve_cons. cbv zeta. cbn [fst]. apply IH. by apply chat_all_stored.
Qed.




(** The Reporter calls of one request. *)
Lemma chat_calls st body x_api_key w :
  reporter_calls (chat cfg st body x_api_key w).2
  = if bool_decide (x_api_key = Some (API_KEY cfg))
       && negb (is_empty (strip (Models.text (Models.message body))))
       && reports (resolve st w (Models.sessionId body)).1
            (strip (Models.text (Models.message body)))
            (Models.conversationHistory body)
    then 1%nat else 0%nat.
Proof.
  destruct (decide (x_api_key = Some (API_KEY cfg))) as [->|Hk];
    [|by rewrite chat_unauthorized, bool_decide_eq_false_2].
  rewrite bool_decide_eq_true_2 by done.
  destruct (is_empty (strip (Models.text (Models.message body)))) eqn:Ht;
    [by rewrite chat_empty_text|].
  cbn [andb negb]. rewrite <- process_calls with (cfg := cfg)
    (session_id := Models.sessionId body) (message := Models.message body) (w := w).
  rewrite chat_handled by done. cbv zeta.
  destruct (process cfg _ _ _ _ _ w).1.2 as [[reply count]|]; cbn [snd]; [|done].
  change (GetSession ?a :: ?l ++ ?r)%list with ((GetSession a :: l) ++ r)%list.
  rewrite reporter_calls_app. cbn. unfold reporter_calls. cbn. lia.
Qed.

Lemma chat_reports_for_own sid st body x_api_key w :
  reports_for sid (chat cfg st body x_api_key w).2
  = if bool_decide (Models.sessionId body = sid)
    then reporter_calls (chat cfg st body x_api_key w).2 else 0%nat.
Proof.
  destruct (decide (x_api_key = Some (API_KEY cfg))) as [->|Hk];
    [|rewrite chat_unauthorized by done; by destruct (bool_decide _)].
  destruct (is_empty (strip (Models.text (Models.message body)))) eqn:Ht;
    [rewrite chat_empty_text by done; by destruct (bool_decide _)|].
  rewrite chat_handled by done. cbv zeta.
  generalize (process_reports_for cfg sid (Models.sessionId body)
                (resolve st w (Models.sessionId body)).1 (Models.message body)
                (strip (Models.text (Models.message body)))
                (Models.conversationHistory body) w).
  destruct (process cfg _ _ _ _ _ w) as [[session' [[reply count]|]] events];
    cbn [fst snd]; intros Hp.
  - change (GetSession ?a :: ?l ++ ?r)%list with ((GetSession a :: l) ++ r)%list.
    rewrite reports_for_app, reporter_calls_app.
    change (reports_for sid (GetSession ?a :: events))
      with (reports_for sid events).
    change (reporter_calls (GetSession ?a :: events))
      with (reporter_calls events).
    rewrite Hp. unfold reports_for at 1. unfold reporter_calls at 2. cbn.
    destruct (bool_decide _); lia || (unfold reporter_calls; lia).
  - exact Hp.
Qed.





Lemma handle_six_fields sid session step :
  six_fields session -> six_fields (handle cfg sid session step).1.1.
Proof. unfold six_fields. by rewrite handle_intel, merge_intel_dom. Qed.



End StoreFacts.

(** ** The session in the stores: reports, flags and intelligence *)
Section StoreClaims.
Import Text Detector Main.
Context {regex : Extractor.Regex} (cfg : Config).




(** C10: the intel object of a session keeps exactly the six field names
    it is created with: a new session has them, handling a message leaves
    the key set as it is, and so every session in the stores has them
    after any sequence of requests. The merge step leaves the key set of
    the stored object as it is, whatever keys the extracted dict carries:
    a key that the stored object lacks is not added. *)
Theorem intel_fields_fixed (session_id : string) :
  ((forall now, six_fields (new_session session_id now))
   /\ (forall session step,
         dom (intel (handle cfg session_id session step).1.1)
         = dom (intel session))
   /\ (forall requests st,
         all_stored six_fields st ->
         all_stored six_fields (serve cfg st requests).1))
  /\ (forall stored extracted, dom (merge_intel stored extracted) = dom stored)
  /\ (forall stored extracted key,
        stored !! key = None -> merge_intel stored extracted !! key = None).
Proof.
  split; [|split].
  - split; [intros now; apply new_session_fields|]. split.
    + intros session step. by rewrite handle_intel, merge_intel_dom.
    + intros requests st. apply serve_all_stored.
      * intros sid now. apply new_session_fields.
      * apply handle_six_fields.
  - apply merge_intel_dom.
  - apply merge_intel_lookup_None.
Qed.

End StoreClaims.

(** ** The reporter *)
Section ReporterFacts.
Import Text Callback.

Lemma succeeded_200 (outcome : post_outcome) :
  succeeded outcome = true <-> outcome = Response 200.
Proof.
  destruct outcome as [code| | |]; simpl; try (split; discriminate).
  rewrite Z.eqb_eq. split; [by intros ->|by intros [= ->]].
Qed.

Lemma attempt_loop_step post attempt remaining :
  attempt_loop post attempt (S remaining) =
  if succeeded (post attempt) then (true, [post attempt])
  else ((attempt_loop post (S attempt) remaining).1,
        post attempt :: (attempt_loop post (S attempt) remaining).2).
Proof.
  simpl. destruct (succeeded (post attempt)); [done|].
  by destruct (attempt_loop post (S attempt) remaining).
Qed.

(** What the loop does: the posts made are the first ones, in order; it
    stops at the first that succeeds, and otherwise goes on to the bound. *)
Lemma attempt_loop_spec post remaining :
  forall attempt,
    let result := attempt_loop post attempt remaining in
    result.2 = post <$> seq attempt (length result.2)
    /\ (length result.2 <= remaining)%nat
    /\ (forall i, (S i < length result.2)%nat ->
                  succeeded (post (attempt + i)%nat) = false)
    /\ (result.1 = true ->
        exists k, length result.2 = S k
                  /\ succeeded (post (attempt + k)%nat) = true)
    /\ (result.1 = false ->
        length result.2 = remaining
        /\ forall i, (i < remaining)%nat ->
                     succeeded (post (attempt + i)%nat) = false).
Proof.
  induction remaining as [|remaining IH]; intros attempt result; subst result.
  - simpl. repeat split; intros; first [done | lia].
  - rewrite attempt_loop_step. destruct (succeeded (post attempt)) eqn:E.
    + cbn [fst snd length seq fmap list_fmap].
      split; [done|]. split; [lia|]. split; [intros; lia|]. split; [|done].
      intros _. exists 0%nat. by rewrite Nat.add_0_r.
    + destruct (IH (S attempt)) as (Hmade & Hlen & Hbefore & Hok & Hfail).
      cbn [fst snd length]. split; [|split; [|split; [|split]]].
      * cbn [seq fmap list_fmap]. by rewrite <- Hmade.
      * lia.
      * intros [|i] Hi; [by rewrite Nat.add_0_r|].
        replace (attempt + S i)%nat with (S attempt + i)%nat by lia.
        apply Hbefore. lia.
      * intros H. destruct (Hok H) as (k & Hk & Hs). exists (S k).
        replace (attempt + S k)%nat with (S attempt + k)%nat by lia.
        by rewrite Hk.
      * intros H. destruct (Hfail H) as [Hn Hall]. split; [by rewrite Hn|].
        intros [|i] Hi; [by rewrite Nat.add_0_r|].
        replace (attempt + S i)%nat with (S attempt + i)%nat by lia.
        apply Hall. lia.
Qed.

Lemma lookup_posts (post : nat -> post_outcome) (n i : nat) :
  (i < n)%nat -> (post <$> seq 0 n) !! i = Some (post i).
Proof. intros Hi. by rewrite list_lookup_fmap, lookup_seq_lt. Qed.

(** C7: the reporter posts at most 3 times, the posts being made one after
    the other; it returns success exactly when one of the posts it made
    was answered with status 200; a post that fails in any way (another
    status, a timeout, a connection fault, any other exception) is
    followed by the next one while fewer than 3 were made; it returns
    failure once 3 posts have failed; and with no destination URL it
    returns failure without posting. *)
Theorem delivery_bounded_retries (url : string) (post : nat -> post_outcome)
    (payload : Payload) :
  let result := send_final_callback url post payload default_max_retries in
  let ok := result.1 in
  let made := result.2 in
  default_max_retries = 3
  /\ (length made <= 3)%nat
  /\ made = post <$> seq 0 (length made)
  /\ (ok = true <-> exists i, made !! i = Some (Response 200))
  /\ (forall i outcome,
        made !! i = Some outcome -> outcome <> Response 200 ->
        (S i < 3)%nat -> (S i < length made)%nat)
  /\ (is_empty url = false -> ok = false ->
      length made = 3%nat /\ Forall (fun outcome => outcome <> Response 200) made)
  /\ (is_empty url = true -> ok = false /\ made = []).
Proof.
  intros result ok made. subst ok made result. unfold send_final_callback.
  split; [done|]. destruct (is_empty url).
  { cbn [fst snd length]. split; [lia|]. split; [done|].
    split; [|split; [|split; [done|done]]].
    - split; [done|]. intros [i Hi]. by rewrite lookup_nil in Hi.
    - intros i outcome Hi. by rewrite lookup_nil in Hi. }
  change (Z.to_nat default_max_retries) with 3%nat.
  destruct (attempt_loop_spec post 3 0%nat) as (Hmade & Hlen & Hbefore & Hok & Hfail).
  cbn [Nat.add] in Hbefore, Hok, Hfail.
  set (result := attempt_loop post 0 3) in *.
  assert (forall i outcome, result.2 !! i = Some outcome -> outcome = post i) as Hat.
  { intros i outcome Hi. pose proof (lookup_lt_Some _ _ _ Hi) as Hlt.
    rewrite Hmade, lookup_posts in Hi by done. by injection Hi. }
  split; [done|]. split; [done|]. split; [|split; [|split; [|done]]].
  - split.
    + intros H. destruct (Hok H) as (k & Hk & Hs). exists k.
      rewrite Hmade, lookup_posts by lia. f_equal. by apply succeeded_200.
    + intros [i Hi]. destruct result.1 eqn:E; [done|].
      destruct (Hfail eq_refl) as [Hn Hall].
      pose proof (lookup_lt_Some _ _ _ Hi) as Hlt.
      assert (succeeded (post i) = true) as Hs
        by (apply succeeded_200; symmetry; exact (Hat _ _ Hi)).
      rewrite (Hall i) in Hs by lia. done.
  - intros i outcome Hi Hne Hbound. destruct result.1 eqn:E.
    + destruct (Hok eq_refl) as (k & Hk & Hs).
      pose proof (lookup_lt_Some _ _ _ Hi) as Hlt.
      destruct (decide (i = k)) as [->|]; [|lia].
      apply succeeded_200 in Hs. rewrite (Hat _ _ Hi) in Hne. done.
    + destruct (Hfail eq_refl) as [-> _]. done.
  - intros _ E. destruct (Hfail E) as [Hn Hall]. split; [done|].
    apply Forall_lookup. intros i outcome Hi.
    pose proof (lookup_lt_Some _ _ _ Hi) as Hlt. rewrite (Hat _ _ Hi).
    intros Heq. apply succeeded_200 in Heq. rewrite (Hall i) in Heq by lia. done.
Qed.

End ReporterFacts.

(** ** The maintenance sweep *)
Section SweepFacts.
Import Memory.
Context {local : LocalTime}.

Lemma to_delete_stale (sessions : gmap string Session) now max_age_seconds :
  to_delete sessions now max_age_seconds
  = omap
      (fun item : string * Session =>
         if stale now max_age_seconds item.2 then Some item.1 else None)
      (map_to_list sessions).
Proof.
  unfold to_delete, stale. cbv zeta.
  induction (map_to_list sessions) as [|[k v] l IH]; [done|].
  csimpl. rewrite IH. by destruct (lastUpdated v).
Qed.

Lemma elem_of_to_delete (sessions : gmap string Session) now max_age_seconds
    session_id :
  session_id ∈ to_delete sessions now max_age_seconds <->
  exists session,
    sessions !! session_id = Some session
    /\ stale now max_age_seconds session = true.
Proof.
  rewrite to_delete_stale, list_elem_of_omap. split.
  - intros ([sid session] & Hin & Hf). apply elem_of_map_to_list in Hin.
    cbn [fst snd] in Hf.
    destruct (stale now max_age_seconds session) eqn:E; [|done].
    injection Hf as <-. by exists session.
  - intros (session & Hs & Hstale).
    exists (session_id, session). split; [by apply elem_of_map_to_list|].
    cbn [fst snd]. by rewrite Hstale.
Qed.

Lemma lookup_fold_delete (ids : list string) (sessions : gmap string Session)
    (session_id : string) :
  fold_left (fun acc id => delete id acc) ids sessions !! session_id
  = if decide (session_id ∈ ids) then None else sessions !! session_id.
Proof.
  revert sessions. induction ids as [|id ids IH]; intros sessions; simpl; [done|].
  rewrite IH. destruct (decide (session_id ∈ ids)) as [Hin|Hin].
  - rewrite decide_True; [done|by right].
  - destruct (decide (session_id = id)) as [->|Hne].
    + rewrite lookup_delete_eq, decide_True; [done|by left].
    + rewrite lookup_delete_ne by done. rewrite decide_False; [done|].
      rewrite elem_of_cons. tauto.
Qed.

Lemma cleanup_lookup (sessions : gmap string Session) now max_age_seconds
    session_id :
  cleanup_old_sessions sessions now max_age_seconds !! session_id
  = if decide (session_id ∈ to_delete sessions now max_age_seconds)
    then None else sessions !! session_id.
Proof.
  unfold cleanup_old_sessions. destruct (decide (sessions = ∅)) as [->|_].
  - rewrite lookup_empty. by destruct (decide _).
  - apply lookup_fold_delete.
Qed.

(** What the sweep leaves under one id: the session as it was, unless the
    test of the first loop succeeds on it. *)
Lemma cleanup_lookup_stale (sessions : gmap string Session) now
    max_age_seconds session_id :
  cleanup_old_sessions sessions now max_age_seconds !! session_id
  = match sessions !! session_id with
    | Some session =>
        if stale now max_age_seconds session then None else Some session
    | None => None
    end.
Proof.
  rewrite cleanup_lookup.
  destruct (decide (session_id ∈ to_delete sessions now max_age_seconds))
    as [Hin|Hout].
  - apply elem_of_to_delete in Hin as (s & -> & ->). done.
  - destruct (sessions !! session_id) as [s|] eqn:Hs; [|done].
    destruct (stale now max_age_seconds s) eqn:E; [|done].
    exfalso. apply Hout, elem_of_to_delete. by exists s.
Qed.

End SweepFacts.

(** ** The sweep against elapsed time *)
Section SweepClaim.
Import Memory Scenario.

(** C8: the sweep does not go by the time a session has been idle. It
    compares the [timestamp()] of two naive UTC readings, which the platform
    reads as local time and rounds to floats. Where the clocks were set
    back one hour between the two readings, a session idle for 1800 s is
    removed under a maximum age of 3600 s; and with local time equal to
    UTC, a session idle for 3600 s exactly is removed under a maximum age
    of 3600 s because of the rounding. *)
Theorem sweep_misjudges_idle_time :
  (after_clock_change - before_clock_change = 1800 * 1000000
   /\ cleanup_old_sessions (local:=clocks_set_back)
        {[ "s-1" := updated_at before_clock_change ]} after_clock_change 3600
      !! "s-1" = None)
  /\ (hour_later - hour_earlier = 3600 * 1000000
      /\ cleanup_old_sessions (local:=utc)
           {[ "s-1" := updated_at hour_earlier ]} hour_later 3600
         !! "s-1" = None).
Proof. split; split; vm_compute; reflexivity. Qed.

End SweepClaim.

(** ** The scorer against its specification *)
Section ScorerClaim.
Import Text Detector ScorerSpec Main.
Context {regex : Extractor.Regex} (cfg : Config).

(** C9: the score of a text is the sum of the weights of the entries of
    the keyword table whose key occurs in the text as a substring, letter
    case disregarded, each entry counted once; a text in which no key
    occurs scores 0, and handling it leaves scamDetected as it was. *)
Theorem score_is_weighted_keyword_sum (text : string) :
  (forall n, weights_sum text SCAM_SIGNALS n <-> n = detect_scam_score text)
  /\ ((forall key weight, (key, weight) ∈ SCAM_SIGNALS -> ~ occurs_ci key text) ->
      detect_scam_score text = 0
      /\ forall session_id session step,
           Models.text (step_message step) = text ->
           scamDetected (handle cfg session_id session step).1.1
           = scamDetected session).
Proof.
  split.
  - intros n. split.
    + intros Hn.
      apply (weights_sum_unique _ _ _ _ Hn (detect_scam_score_weights_sum text)).
    + intros ->. apply detect_scam_score_weights_sum.
  - intros Hnone.
    assert (detect_scam_score text = 0) as Hzero
      by apply (weights_sum_none _ _ _ Hnone (detect_scam_score_weights_sum text)).
    split; [done|]. intros session_id session step Htext. unfold handle.
    rewrite process_scamDetected, is_scam_strip, Htext. unfold is_scam.
    rewrite Hzero. apply orb_false_r.
Qed.

End ScorerClaim.

(** ** The claims on concrete inputs *)
Section Instances.
Import Text Detector ScorerSpec Main Scenario.

Example score_greeting : detect_scam_score "Hello, how are you?" = 0.
Proof. reflexivity. Qed.

Example score_blocked_account :
  detect_scam_score
    "Your account has been blocked. Click here to verify immediately!" = 16.
Proof. reflexivity. Qed.

Example strip_blanks : strip "  urgent  " = "urgent".
Proof. reflexivity. Qed.



(** One message scoring 9 latches a session whose score was 0. *)
Lemma single_message_latches_witness :
  scamDetected
    (handle (regex:=plain_text_regex) config "s-2" (new_session "s-2" 0)
       (step "Share your OTP and CVV" never_lands)).1.1 = true.
Proof.
  destruct (single_message_latches (regex:=plain_text_regex) config "s-2"
              (new_session "s-2" 0) (step "Share your OTP and CVV" never_lands))
    as (_ & Hlatch & _).
  apply Hlatch. vm_compute. discriminate.
Defined.





(** The save raises; the answer is the success response all the same. *)
Lemma save_failure_absorbed_witness :
  exists reply,
    (chat (regex:=plain_text_regex) config durable_store
       (request "s-4" "Share your OTP and CVV") (Some "s3cret")
       (set_redis_save_fault (world 5 never_lands false) true)).1.2
    = inr {| Models.status := "success"; Models.reply := reply;
             Models.scamDetected := true; Models.scamScore := 9;
             Models.messageCount := 1 |}.
Proof.
  destruct (save_failure_absorbed (regex:=plain_text_regex) config durable_store
              (request "s-4" "Share your OTP and CVV") (Some "s3cret")
              (world 5 never_lands false)) as [_ Hanswer].
  destruct Hanswer as (reply & Hreply & _); [reflexivity | reflexivity | by eexists |].
  exists reply. exact Hreply.
Defined.

(** A wrong secret: refused, nothing touched. *)
Lemma invalid_requests_rejected_witness :
  chat (regex:=plain_text_regex) config no_store (request "s-5" "hello")
    (Some "guess") (world 5 never_lands false)
  = (no_store, inl (HTTPError 401 "Invalid API Key"), []).
Proof.
  destruct (invalid_requests_rejected (regex:=plain_text_regex) config no_store
              (request "s-5" "hello") (Some "guess") (world 5 never_lands false))
    as [Hkey _].
  apply Hkey. discriminate.
Defined.

(** The second post lands: success after two posts. *)
Lemma delivery_bounded_retries_witness :
  (Callback.send_final_callback "https://collector.example/report"
     second_post_lands
     {| Callback.sessionId := "s-1"; Callback.scamDetected := true;
        Callback.totalMessagesExchanged := 8;
        Callback.extractedIntelligence := ∅;
        Callback.agentNotes := ""; Callback.finalScamScore := 9;
        Callback.timestamp := 5 |}
     Callback.default_max_retries).1 = true.
Proof.
  destruct (delivery_bounded_retries "https://collector.example/report"
              second_post_lands
              {| Callback.sessionId := "s-1"; Callback.scamDetected := true;
                 Callback.totalMessagesExchanged := 8;
                 Callback.extractedIntelligence := ∅;
                 Callback.agentNotes := ""; Callback.finalScamScore := 9;
                 Callback.timestamp := 5 |})
    as (_ & _ & _ & Hok & _).
  apply Hok. exists 1%nat. reflexivity.
Defined.

Lemma greeting_has_no_keyword (key : string) (weight : Z) :
  (key, weight) ∈ SCAM_SIGNALS -> ~ occurs_ci key "Hello, how are you?".
Proof.
  intros Hin Hocc. apply occurs_ci_contains in Hocc.
  assert (Forall (fun entry => contains (lower entry.1) (lower "Hello, how are you?")
                               = false) SCAM_SIGNALS) as Hall
    by (apply (bool_decide_unpack _); vm_compute; exact I).
  rewrite Forall_forall in Hall.
  exact (eq_true_false_abs _ Hocc (Hall _ Hin)).
Qed.

(** A greeting holds no keyword: it scores 0. *)
Lemma score_is_weighted_keyword_sum_witness :
  detect_scam_score "Hello, how are you?" = 0.
Proof.
  destruct (score_is_weighted_keyword_sum (regex:=plain_text_regex) config
              "Hello, how are you?") as [_ Hnone].
  destruct (Hnone greeting_has_no_keyword) as [Hzero _]. exact Hzero.
Defined.

(** An extracted key that the session does not have is dropped. *)
Lemma intel_fields_fixed_witness :
  merge_intel (intel (new_session "s-6" 0)) [("riskScore", ["5"])] !! "riskScore"
  = None.
Proof.
  destruct (intel_fields_fixed (regex:=plain_text_regex) config "s-6")
    as (_ & _ & Hdrop).
  apply Hdrop. reflexivity.
Defined.

End Instances.

(** * More of the code *)

(** ** The scorer and the detailed analysis *)
Section ScorerMore.
Import Text Detector ScorerSpec.
Local Arguments String.append : simpl nomatch.

Lemma lower_char_idem (c : ascii) : lower_char (lower_char c) = lower_char c.
Proof.
  destruct c as [[] [] [] [] [] [] [] []]; reflexivity.
Qed.

Lemma lower_idem (s : string) : lower (lower s) = lower s.
Proof.
  induction s as [|c s IH]; simpl; [done|]. by rewrite lower_char_idem, IH.
Qed.

Lemma total_weight_cons key weight (entries : list (string * Z)) :
  total_weight ((key, weight) :: entries) = weight + total_weight entries.
Proof. reflexivity. Qed.

Lemma score_loop_bounds (table : list (string * Z)) (text_lower : string) :
  positive_weights table = true ->
  0 <= score_loop table text_lower <= total_weight table.
Proof.
  induction table as [|[k w] table IH]; intros H.
  - unfold score_loop, total_weight. simpl. lia.
  - simpl in H. apply andb_true_iff in H as [Hw Ht]. apply Z.ltb_lt in Hw.
    rewrite score_loop_cons, total_weight_cons.
    specialize (IH Ht). destruct (contains k text_lower); lia.
Qed.

Lemma score_loop_key (table : list (string * Z)) (text_lower key : string)
    (weight : Z) :
  positive_weights table = true -> (key, weight) ∈ table ->
  contains key text_lower = true -> weight <= score_loop table text_lower.
Proof.
  induction table as [|[k w] table IH]; intros H Hin Hc;
    [by apply elem_of_nil in Hin|].
  simpl in H. apply andb_true_iff in H as [Hw Ht]. apply Z.ltb_lt in Hw.
  rewrite score_loop_cons. pose proof (score_loop_bounds table text_lower Ht).
  apply elem_of_cons in Hin as [Heq|Hin].
  - injection Heq as <- <-. rewrite Hc. lia.
  - specialize (IH Ht Hin Hc). destruct (contains k text_lower); lia.
Qed.

Lemma score_loop_mono (table : list (string * Z)) (t1 t2 : string) :
  positive_weights table = true ->
  (forall key, contains key t1 = true -> contains key t2 = true) ->
  score_loop table t1 <= score_loop table t2.
Proof.
  induction table as [|[k w] table IH]; intros H Hsub;
    [unfold score_loop; simpl; lia|].
  simpl in H. apply andb_true_iff in H as [Hw Ht]. apply Z.ltb_lt in Hw.
  rewrite !score_loop_cons. specialize (IH Ht Hsub).
  destruct (contains k t1) eqn:E; [rewrite (Hsub _ E); lia|].
  destruct (contains k t2); lia.
Qed.

Lemma contains_within (key t a b : string) :
  contains key t = true -> contains key (a ++ t ++ b) = true.
Proof.
  intros H. destruct (contains_inv _ _ H) as (x & y & ->).
  replace (a ++ (x ++ key ++ y) ++ b)%string
    with ((a ++ x) ++ key ++ (y ++ b))%string
    by (by rewrite !string_app_assoc).
  apply contains_app.
Qed.

Lemma score_loop_filter (table : list (string * Z)) (text_lower : string) :
  score_loop table text_lower
  = total_weight
      (List.filter (fun signal => contains (fst signal) text_lower) table).
Proof.
  induction table as [|[k w] table IH]; [done|].
  rewrite score_loop_cons, IH. cbn [List.filter fst].
  destruct (contains k text_lower); [by rewrite total_weight_cons|lia].
Qed.


(** X1: the score of a text lies between 0 and 122, the sum of all the
    weights of the table, and grows with the text: a text scores at least
    as much as any piece of it. *)
Theorem score_bounded_and_monotone (text before after : string) :
  0 <= detect_scam_score text <= 122
  /\ detect_scam_score text <= detect_scam_score (before ++ text ++ after).
Proof.
  rewrite !detect_scam_score_loop. split.
  - change 122 with (total_weight SCAM_SIGNALS).
    apply (score_loop_bounds SCAM_SIGNALS (lower text)). reflexivity.
  - apply score_loop_mono; [reflexivity|]. intros key.
    rewrite !lower_app. apply contains_within.
Qed.

Lemma table_key_occurs (text key : string) (weight : Z) :
  (key, weight) ∈ SCAM_SIGNALS ->
  occurs_ci key text <-> contains key (lower text) = true.
Proof.
  intros Hin. rewrite occurs_ci_contains.
  assert (lower_keys SCAM_SIGNALS = true) as Hlow by reflexivity.
  unfold lower_keys in Hlow. rewrite forallb_forall in Hlow.
  apply list_elem_of_In, Hlow, String.eqb_eq in Hin. simpl in Hin.
  by rewrite Hin.
Qed.

(** X2: a key of the table that occurs in a text, in any letter case,
    contributes its whole weight: the score is at least that weight, and
    the text is a scam on its own when the weight reaches the threshold. *)
Theorem occurring_key_counts (text key : string) (weight : Z) :
  (key, weight) ∈ SCAM_SIGNALS -> occurs_ci key text ->
  weight <= detect_scam_score text
  /\ (THRESHOLD <= weight -> is_scam text = true).
Proof.
  intros Hin Hocc. apply (table_key_occurs text key weight Hin) in Hocc.
  assert (weight <= detect_scam_score text) as Hle.
  { rewrite detect_scam_score_loop.
    by apply (score_loop_key SCAM_SIGNALS (lower text) key weight). }
  split; [done|]. intros Hw. unfold is_scam. apply Z.leb_le. lia.
Qed.

(** X3: the score depends neither on the letter case of the text nor on
    the whitespace around it. *)
Theorem score_ignores_case_and_margins (text : string) :
  detect_scam_score (lower text) = detect_scam_score text
  /\ detect_scam_score (strip text) = detect_scam_score text
  /\ (forall other, lower other = lower text ->
                    detect_scam_score other = detect_scam_score text).
Proof.
  split; [|split].
  - by rewrite !detect_scam_score_loop, lower_idem.
  - apply detect_scam_score_strip.
  - intros other Heq. by rewrite !detect_scam_score_loop, Heq.
Qed.

(** X4: in the detailed analysis the score is the sum of the weights of
    the matched signals, the matched signals are the table entries whose
    key the lowered text contains, in table order, the scam flag is set
    exactly when the risk level is not "low", and a "high" level means a
    score of at least 8. *)
Theorem analysis_is_consistent (text : string) :
  let a := DetectorAnalysis.analyze_message text in
  DetectorAnalysis.scamScore a
  = total_weight (DetectorAnalysis.matchedSignals a)
  /\ (forall key weight,
        (key, weight) ∈ DetectorAnalysis.matchedSignals a <->
        (key, weight) ∈ SCAM_SIGNALS /\ occurs_ci key text)
  /\ (DetectorAnalysis.isScam a = true <-> DetectorAnalysis.riskLevel a <> "low")
  /\ (DetectorAnalysis.riskLevel a = "high" <-> 8 <= DetectorAnalysis.scamScore a)
  /\ DetectorAnalysis.threshold a = 4.
Proof.
  intros a. subst a. unfold DetectorAnalysis.analyze_message.
  cbn [DetectorAnalysis.scamScore DetectorAnalysis.isScam
       DetectorAnalysis.threshold DetectorAnalysis.matchedSignals
       DetectorAnalysis.riskLevel].
  split; [|split; [|split; [|split; [|done]]]].
  - rewrite detect_scam_score_loop. apply score_loop_filter.
  - intros key weight. rewrite list_elem_of_In, filter_In, <- list_elem_of_In.
    cbn [fst]. split; intros [Hin Hc]; (split; [done|]);
      by apply (table_key_occurs text key weight Hin).
  - unfold is_scam, THRESHOLD.
    destruct (Z.leb_spec 8 (detect_scam_score text)) as [H8|H8].
    + rewrite (proj2 (Z.leb_le 4 _)) by lia. split; [discriminate|done].
    + destruct (Z.leb_spec 4 (detect_scam_score text)); split; done.
  - destruct (Z.leb_spec 8 (detect_scam_score text)) as [H8|H8]; [done|].
    destruct (4 <=? detect_scam_score text); split; try discriminate; lia.
Qed.

End ScorerMore.

(** ** The extractor *)
Section ExtractorMore.
Import Text Extractor ExtractorRisk ScorerSpec.
Context {regex : Regex}.

Lemma getitem_fields (a u l p k e : list string) :
  let d := [ ("bankAccounts", a); ("upiIds", u); ("phishingLinks", l);
             ("phoneNumbers", p); ("suspiciousKeywords", k);
             ("emailAddresses", e) ] in
  getitem d "bankAccounts" = a /\ getitem d "upiIds" = u
  /\ getitem d "phishingLinks" = l /\ getitem d "phoneNumbers" = p
  /\ getitem d "suspiciousKeywords" = k /\ getitem d "emailAddresses" = e.
Proof. repeat split; reflexivity. Qed.

Lemma extract_upi_ids (text : string) :
  getitem (extract_intelligence text) "upiIds"
  = if is_empty text then []
    else List.filter
           (fun uid => existsb (fun handle => contains handle (lower uid)) upi_handles)
           (list_set (findall "[a-zA-Z0-9._-]+@[a-zA-Z0-9]+" text)).
Proof. unfold extract_intelligence. by destruct (is_empty text). Qed.

Lemma extract_keywords (text : string) :
  getitem (extract_intelligence text) "suspiciousKeywords"
  = if is_empty text then []
    else list_set
           (List.filter (fun kw => contains kw (lower text)) suspicious_keywords_list).
Proof. unfold extract_intelligence. by destruct (is_empty text). Qed.

Lemma suspicious_keyword_occurs (text kw : string) :
  kw ∈ suspicious_keywords_list ->
  occurs_ci kw text <-> contains kw (lower text) = true.
Proof.
  intros Hin. rewrite occurs_ci_contains.
  assert (Forall (fun kw => lower kw = kw) suspicious_keywords_list) as Hlow
    by (apply (bool_decide_unpack _); vm_compute; exact I).
  rewrite Forall_forall in Hlow. by rewrite (Hlow _ Hin).
Qed.

(** X5: whatever the regular-expression engine finds, the extraction has
    exactly the six fields, no field holds a duplicate, every UPI id kept
    contains one of the seven allowed handles once lowered, and the
    suspicious keywords are exactly the keywords of the static list that
    occur in the text, letter case disregarded. *)
Theorem extraction_is_clean (text : string) :
  (extract_intelligence text).*1 = Main.intel_fields
  /\ Forall (fun item => NoDup item.2) (extract_intelligence text)
  /\ (forall uid,
        uid ∈ getitem (extract_intelligence text) "upiIds" ->
        exists handle, handle ∈ upi_handles /\ contains handle (lower uid) = true)
  /\ (forall kw,
        kw ∈ getitem (extract_intelligence text) "suspiciousKeywords" <->
        kw ∈ suspicious_keywords_list /\ occurs_ci kw text).
Proof.
  split; [apply extract_intelligence_keys|]. split; [|split].
  - unfold extract_intelligence. destruct (is_empty text).
    + repeat constructor.
    + repeat (apply Forall_cons; split; [cbn [snd]|]);
        try apply NoDup_list_set; [|constructor].
      apply NoDup_ListNoDup, List.NoDup_filter, NoDup_ListNoDup, NoDup_list_set.
  - intros uid. rewrite extract_upi_ids. destruct (is_empty text).
    + intros H. by apply elem_of_nil in H.
    + rewrite list_elem_of_In, filter_In. intros [_ H].
      apply existsb_exists in H as (handle & Hin & Hc).
      exists handle. by rewrite list_elem_of_In.
  - intros kw. rewrite extract_keywords. destruct (is_empty text) eqn:Ht.
    + destruct text; [|discriminate]. split.
      * intros H. by apply elem_of_nil in H.
      * intros [Hin Hocc]. apply (suspicious_keyword_occurs "" kw Hin) in Hocc.
        assert (Forall (fun kw => contains kw (lower "") = false)
                  suspicious_keywords_list) as Hnone
          by (apply (bool_decide_unpack _); vm_compute; exact I).
        rewrite Forall_forall in Hnone. rewrite (Hnone _ Hin) in Hocc. done.
    + rewrite elem_of_list_set, list_elem_of_In, filter_In, <- list_elem_of_In.
      split; intros [Hin Hc]; (split; [done|]);
        by apply (suspicious_keyword_occurs text kw Hin).
Qed.

(** X6: the categorised extraction returns the extracted items unchanged;
    its risk score is 5 for each bank account, 4 for each UPI id, 3 for
    each link and 2 for each phone number, keywords and e-mail addresses
    counting for nothing; the level is "low" exactly when none of those
    four kinds was found, "critical" from 10 on, "high" from 5 to 9 and
    "medium" below. *)
Theorem risk_follows_findings (text : string) :
  let c := extract_and_categorize text in
  let n key := Z.of_nat (List.length (getitem (extract_intelligence text) key)) in
  intelligence c = extract_intelligence text
  /\ riskScore c
     = 5 * n "bankAccounts" + 4 * n "upiIds" + 3 * n "phishingLinks"
       + 2 * n "phoneNumbers"
  /\ (riskLevel c = "low" <->
      n "bankAccounts" = 0 /\ n "upiIds" = 0 /\ n "phishingLinks" = 0
      /\ n "phoneNumbers" = 0)
  /\ (riskLevel c = "critical" <-> 10 <= riskScore c)
  /\ (riskLevel c = "high" <-> 5 <= riskScore c < 10)
  /\ (riskLevel c = "medium" <-> 0 < riskScore c < 5).
Proof.
  intros c n. subst c. unfold extract_and_categorize.
  cbn [intelligence riskScore riskLevel]. fold (n "bankAccounts").
  fold (n "upiIds"). fold (n "phishingLinks"). fold (n "phoneNumbers").
  assert (0 <= n "bankAccounts") as Hb by apply Nat2Z.is_nonneg.
  assert (0 <= n "upiIds") as Hu by apply Nat2Z.is_nonneg.
  assert (0 <= n "phishingLinks") as Hl by apply Nat2Z.is_nonneg.
  assert (0 <= n "phoneNumbers") as Hp by apply Nat2Z.is_nonneg.
  generalize dependent (n "bankAccounts"). generalize dependent (n "upiIds").
  generalize dependent (n "phishingLinks"). generalize dependent (n "phoneNumbers").
  intros p Hp l Hl u Hu b Hb.
  set (score :=
         let r := 0 in
         let r := if 0 <? b then r + 5 * b else r in
         let r := if 0 <? u then r + 4 * u else r in
         let r := if 0 <? l then r + 3 * l else r in
         if 0 <? p then r + 2 * p else r).
  assert (score = 5 * b + 4 * u + 3 * l + 2 * p) as Hscore.
  { subst score. cbv zeta.
    destruct (Z.ltb_spec 0 b), (Z.ltb_spec 0 u), (Z.ltb_spec 0 l),
      (Z.ltb_spec 0 p); lia. }
  change (let r := 0 in
          let r := if 0 <? b then r + 5 * b else r in
          let r := if 0 <? u then r + 4 * u else r in
          let r := if 0 <? l then r + 3 * l else r in
          if 0 <? p then r + 2 * p else r) with score.
  cbv zeta. fold score. rewrite Hscore. clear score Hscore.
  split; [done|]. split; [done|].
  destruct (Z.leb_spec 10 (5 * b + 4 * u + 3 * l + 2 * p)) as [H10|H10].
  { repeat split; try discriminate; try done; lia. }
  destruct (Z.leb_spec 5 (5 * b + 4 * u + 3 * l + 2 * p)) as [H5|H5].
  { repeat split; try discriminate; try done; lia. }
  destruct (Z.ltb_spec 0 (5 * b + 4 * u + 3 * l + 2 * p)) as [H0|H0].
  { repeat split; try discriminate; try done; lia. }
  repeat split; try discriminate; try done; lia.
Qed.

End ExtractorMore.

(** ** The durable store and the in-memory store *)
Section StoresMore.
Import RedisStore Memory.
Context {local : LocalTime}.

(** X7: with a client and no fault, a saved session is read back as it was
    saved, under its own id only; the save reports success, a later save
    under the same id replaces the earlier one, and every other id reads
    as before. *)
Theorem durable_save_round_trip (r : Redis) (session_id : string)
    (data : Session) :
  connected r = true ->
  (save_session r false session_id data).2 = true
  /\ get_session (save_session r false session_id data).1 false session_id
     = Some data
  /\ (forall other, other <> session_id ->
        get_session (save_session r false session_id data).1 false other
        = get_session r false other)
  /\ (forall earlier,
        (save_session (save_session r false session_id earlier).1 false
           session_id data).1
        = (save_session r false session_id data).1).
Proof.
  destruct r as [c d]. cbn. intros ->. unfold save_session, get_session. cbn.
  split; [done|]. split; [apply lookup_insert_eq|].
  split; [intros other Hne; by rewrite lookup_insert_ne|].
  intros earlier. by rewrite insert_insert_eq.
Qed.

Lemma keys_listed (d : gmap string Session) (id : string) :
  id ∈ (map_to_list d).*1 <-> is_Some (d !! id).
Proof.
  rewrite list_elem_of_fmap. split.
  - intros ([k v] & -> & Hin). apply elem_of_map_to_list in Hin. by eexists.
  - intros [v Hv]. exists (id, v). split; [done|]. by apply elem_of_map_to_list.
Qed.

(** X8: with a client and no fault, a delete reports success exactly when
    the id was stored; afterwards the id reads as absent and is no longer
    listed, every other id reads as before, and the listing holds exactly
    the ids that read as present, each once. *)
Theorem durable_delete_and_listing (r : Redis) (session_id : string) :
  connected r = true ->
  ((delete_session r false session_id).2 = true <->
   is_Some (get_session r false session_id))
  /\ get_session (delete_session r false session_id).1 false session_id = None
  /\ (forall other, other <> session_id ->
        get_session (delete_session r false session_id).1 false other
        = get_session r false other)
  /\ NoDup (get_all_sessions r false)
  /\ (forall id, id ∈ get_all_sessions r false <->
                 is_Some (get_session r false id))
  /\ session_id ∉ get_all_sessions (delete_session r false session_id).1 false.
Proof.
  destruct r as [c d]. cbn. intros ->.
  unfold delete_session, get_session, get_all_sessions. cbn.
  destruct (d !! session_id) as [s|] eqn:E; cbn.
  - split; [split; by eauto|]. split; [apply lookup_delete_eq|].
    split; [intros other Hne; by apply lookup_delete_ne|].
    split; [apply NoDup_fst_map_to_list|]. split; [apply keys_listed|].
    rewrite keys_listed, lookup_delete_eq. by intros [? ?].
  - split; [split; [done | by intros [? ?]]|]. split; [done|].
    split; [done|]. split; [apply NoDup_fst_map_to_list|].
    split; [apply keys_listed|]. rewrite keys_listed, E. by intros [? ?].
Qed.

Lemma cleanup_insert (sessions : gmap string Session) now
    max_age_seconds session_id session :
  cleanup_old_sessions (<[session_id := session]> sessions) now
    max_age_seconds
  = if stale now max_age_seconds session
    then delete session_id
           (cleanup_old_sessions sessions now max_age_seconds)
    else <[session_id := session]>
           (cleanup_old_sessions sessions now max_age_seconds).
Proof.
  apply map_eq. intros k. rewrite cleanup_lookup_stale.
  destruct (decide (k = session_id)) as [->|Hne].
  - rewrite lookup_insert_eq.
    destruct (stale now max_age_seconds session);
      [by rewrite lookup_delete_eq | by rewrite lookup_insert_eq].
  - rewrite lookup_insert_ne by done.
    destruct (stale now max_age_seconds session);
      [rewrite lookup_delete_ne by done | rewrite lookup_insert_ne by done];
      by rewrite cleanup_lookup_stale.
Qed.

(** X9: the sweep only removes: what it keeps is part of the store; the
    number of sessions it leaves is the number it found less the number of
    ids it collected for deletion (the count it logs); and a second sweep
    with the same time and age changes nothing more. *)
Theorem sweep_counts_and_settles (sessions : gmap string Session)
    (now max_age_seconds : Z) :
  let swept := cleanup_old_sessions sessions now max_age_seconds in
  swept ⊆ sessions
  /\ (get_session_count swept
        + length (to_delete sessions now max_age_seconds)
      = get_session_count sessions)%nat
  /\ cleanup_old_sessions swept now max_age_seconds = swept.
Proof.
  intros swept. subst swept. split; [|split].
  - apply map_subseteq_spec. intros k s. rewrite cleanup_lookup_stale.
    destruct (sessions !! k) as [s'|]; [|done].
    by destruct (stale now max_age_seconds s').
  - unfold get_session_count. rewrite to_delete_stale.
    induction sessions as [|k s m Hk Hfirst IH] using map_first_key_ind.
    + unfold cleanup_old_sessions. rewrite decide_True by done.
      by rewrite map_to_list_empty.
    + rewrite cleanup_insert, map_to_list_insert_first_key by done. csimpl.
      assert (cleanup_old_sessions m now max_age_seconds !! k = None)
        as Hnone by (by rewrite cleanup_lookup_stale, Hk).
      destruct (stale now max_age_seconds s).
      * rewrite delete_id by done. rewrite map_size_insert_None by done.
        cbn. lia.
      * rewrite !map_size_insert_None by done. lia.
  - apply map_eq. intros k. rewrite !cleanup_lookup_stale.
    destruct (sessions !! k) as [s|]; [|done].
    destruct (stale now max_age_seconds s) eqn:E; [done|].
    by rewrite E.
Qed.

End StoresMore.

(** ** The reply generator *)
Section AgentMore.
Import Text Agent.

Lemma fallback_lengths :
  Forall (fun reply => (0 < String.length reply < 500)%nat) FALLBACK_RESPONSES.
Proof. apply (bool_decide_unpack _). vm_compute. exact I. Qed.

Lemma reply_bounds (latest_message : string)
    (history : list Models.Message) (generated : option string) :
  generate_agent_reply latest_message None generated = None
  /\ exists reply,
       generate_agent_reply latest_message (Some history) generated = Some reply
       /\ (0 < String.length reply < 500)%nat
       /\ (reply = nth (Nat.min (List.length history) 7) FALLBACK_RESPONSES ""
           \/ exists raw, generated = Some raw /\ reply = strip raw
                          /\ (10 < String.length reply)%nat).
Proof.
  split; [done|]. unfold generate_agent_reply.
  change (List.length FALLBACK_RESPONSES - 1)%nat with 7%nat.
  set (fallback := nth (Nat.min (List.length history) 7) FALLBACK_RESPONSES "").
  assert ((0 < String.length fallback < 500)%nat) as Hfallback.
  { pose proof fallback_lengths as Hall. rewrite Forall_forall in Hall.
    apply Hall, list_elem_of_In. subst fallback. apply nth_In.
    change (List.length FALLBACK_RESPONSES) with 8%nat. lia. }
  destruct generated as [raw|]; [|exists fallback; by auto].
  destruct (negb (is_empty (strip raw)) && (10 <? String.length (strip raw))%nat
            && (String.length (strip raw) <? 500)%nat) eqn:E.
  - apply andb_true_iff in E as [E H500]. apply andb_true_iff in E as [_ H10].
    apply Nat.ltb_lt in H500, H10.
    exists (strip raw). split; [done|]. split; [lia|]. right. by exists raw.
  - exists fallback. by auto.
Qed.

(** X10: with a history the generator always returns a reply, never an
    empty one and never one of 500 characters or more: either one of the
    eight fallbacks, chosen by the length of the history and the same one
    for every history of seven messages or more, or the trimmed generated
    text when that is longer than 10 characters. With a null history it
    returns nothing (the call raises). *)
Theorem reply_is_never_blank (latest_message : string)
    (history : list Models.Message) (generated : option string) :
  generate_agent_reply latest_message None generated = None
  /\ exists reply,
       generate_agent_reply latest_message (Some history) generated = Some reply
       /\ (0 < String.length reply < 500)%nat
       /\ (reply = nth (Nat.min (List.length history) 7) FALLBACK_RESPONSES ""
           \/ exists raw, generated = Some raw /\ reply = strip raw
                          /\ (10 < String.length reply)%nat).
Proof. apply reply_bounds. Qed.

End AgentMore.

(** ** More on sessions and requests *)
Section SessionMore.
Import Text Detector Main.
Context {regex : Extractor.Regex} (cfg : Config).






Lemma reports_needs_eight session text history :
  reports session text history = true ->
  8 <= Z.of_nat (List.length (messages session)) + 1.
Proof.
  unfold reports. destruct history; [|done]. intros H.
  apply andb_true_iff in H as [H _]. apply andb_true_iff in H as [_ H].
  by apply Z.leb_le.
Qed.

(** X12: no report is made for a session while it counts fewer than eight
    messages, whatever the messages say and whatever fails: handling a
    message on a session of fewer than seven makes no Reporter call, and
    when every stored copy of a session has at most [n] messages, a
    sequence of requests with fewer than [8 - n] for that session id makes
    no report for it. *)
Theorem no_report_before_eight (sid : string) :
  (forall session step,
     (List.length (messages session) < 7)%nat ->
     reporter_calls (handle cfg sid session step).2 = 0%nat)
  /\ (forall requests st n,
        every_copy (fun s => (List.length (messages s) <= n)%nat) st sid ->
        (n + List.length (requests_for sid requests) < 8)%nat ->
        reports_for sid (serve cfg st requests).2 = 0%nat).
Proof.
  split.
  - intros session step Hlen. rewrite handle_calls.
    destruct (reports session _ (step_history step)) eqn:E; [|done].
    apply reports_needs_eight in E. lia.
  - induction requests as [|r rest IH]; intros st n Hcopy Hlen; [done|].
    rewrite serve_cons. cbv zeta. cbn [snd]. rewrite reports_for_app.
    rewrite chat_reports_for_own. unfold requests_for in Hlen.
    cbn [List.filter] in Hlen. fold (requests_for sid rest) in Hlen.
    destruct (bool_decide_reflect
                (Models.sessionId (request_body r) = sid)) as [Hsid|Hne].
    + cbn [List.length] in Hlen.
      assert (List.length
                (messages (resolve st (request_world r) sid).1) <= n)%nat
        as Hfound.
      { apply (resolve_every_copy
                 (fun s => (List.length (messages s) <= n)%nat));
          [done | cbn; lia]. }
      rewrite chat_calls, Hsid.
      destruct (_ && _ && reports _ _ _) eqn:E.
      * apply andb_true_iff in E as [_ E]. apply reports_needs_eight in E. lia.
      * rewrite Nat.add_0_l. apply (IH _ (S n)); [|lia].
        apply (chat_every_copy cfg
                 (fun s => (List.length (messages s) <= n)%nat)); [done|lia|].
        intros _. unfold processed. rewrite process_messages, length_app, Hsid.
        cbn [List.length]. lia.
    + rewrite Nat.add_0_l. apply (IH _ n); [|done].
      by apply (chat_every_copy cfg
                  (fun s => (List.length (messages s) <= n)%nat)).
Qed.

(** X13: when a message triggers the report, the Reporter is called once,
    after the scorer, the extractor and the reply generator, with a
    payload that carries the request's session id, scamDetected true and
    the session's message count, merged intelligence and cumulative score
    as they stand after this message; the posts recorded are those of the
    delivery with the default bound. *)
Theorem report_carries_session (session_id : string) (session : Session)
    (step : Step) :
  let text := strip (Models.text (step_message step)) in
  let after := (handle cfg session_id session step).1.1 in
  reports session text (step_history step) = true ->
  exists payload,
    (handle cfg session_id session step).2
    = [Scorer text; Scorer text; Extractor text; ReplyGenerator text;
       Reporter payload
         (Callback.send_final_callback (GUVI_CALLBACK_URL cfg)
            (post (step_world step)) payload Callback.default_max_retries).2]
    /\ Callback.sessionId payload = session_id
    /\ Callback.scamDetected payload = true
    /\ Callback.totalMessagesExchanged payload
       = Z.of_nat (List.length (messages after))
    /\ Callback.extractedIntelligence payload = intel after
    /\ Callback.finalScamScore payload = scamScore after
    /\ Callback.timestamp payload = utcnow (step_world step).
Proof.
  intros text after Hreports. subst after. unfold handle. fold text.
  rewrite process_messages, process_intel, process_scamScore, process_events.
  cbv zeta. destruct (step_history step) as [h|] eqn:Hh; [|done].
  set (acc := accumulated session (step_message step) text
                (utcnow (step_world step))).
  assert (scamDetected acc
          && (8 <=? Z.of_nat (List.length (messages acc)))
          && negb (callbackSent acc) = true) as Hdue.
  { subst acc. rewrite accumulated_scamDetected, accumulated_callbackSent,
      accumulated_messages, length_app, Nat2Z.inj_add. exact Hreports. }
  unfold final_callback. rewrite Hdue. cbn [snd app].
  eexists. split; [reflexivity|].
  cbn [Callback.sessionId Callback.scamDetected Callback.totalMessagesExchanged
       Callback.extractedIntelligence Callback.finalScamScore Callback.timestamp].
  subst acc. rewrite accumulated_messages, accumulated_intel, accumulated_scamScore.
  done.
Qed.

Lemma resolve_from_sessions st w session_id :
  (resolve st w session_id).2 = FromSessions ->
  sessions st !! session_id = Some (resolve st w session_id).1.
Proof.
  unfold resolve. destruct (RedisStore.get_session _ _ _); [done|].
  by destruct (sessions st !! session_id).
Qed.

(** X14: a request with the right secret and a text, but a null
    conversation history, is answered 500: the scorer, the extractor and
    the reply generator were called, but no report is made and nothing is
    saved. The durable store and every other session are as before; the
    session of the request is changed only when it was taken from the
    in-memory dict, where it then stands with the message appended. *)
Theorem null_history_fails_midway st body w :
  let session_id := Models.sessionId body in
  let text := strip (Models.text (Models.message body)) in
  let r := chat cfg st body (Some (API_KEY cfg)) w in
  is_empty text = false ->
  Models.conversationHistory body = None ->
  r.1.2 = inl (HTTPError 500 "Internal server error")
  /\ r.2 = [GetSession session_id; Scorer text; Scorer text; Extractor text;
            ReplyGenerator text]
  /\ redis r.1.1 = redis st
  /\ (forall other, other <> session_id ->
        sessions r.1.1 !! other = sessions st !! other)
  /\ ((resolve st w session_id).2 <> FromSessions -> r.1.1 = st)
  /\ ((resolve st w session_id).2 = FromSessions ->
      exists old new,
        sessions st !! session_id = Some old
        /\ sessions r.1.1 !! session_id = Some new
        /\ messages new = (messages old ++ [Models.message body])%list
        /\ scamScore new = scamScore old + detect_scam_score text
        /\ callbackSent new = callbackSent old).
Proof.
  intros session_id text r Ht Hnull. subst r.
  rewrite chat_handled by done. cbv zeta. fold session_id text.
  rewrite process_reply, process_events, Hnull. cbn [Agent.generate_agent_reply].
  cbv zeta. cbn [fst snd].
  split; [done|]. split; [done|].
  destruct (resolve st w session_id).2 eqn:Hfrom; cbn [redis sessions].
  - split; [done|]. split; [done|]. split; [done|]. intros [=].
  - split; [done|]. split; [intros other Hne; by rewrite lookup_insert_ne|].
    split; [done|]. intros _.
    exists (resolve st w session_id).1. eexists.
    split; [by apply resolve_from_sessions|].
    split; [apply lookup_insert_eq|].
    rewrite process_messages, process_scamScore, process_callbackSent.
    cbn [reports]. by rewrite orb_false_r.
  - split; [done|]. split; [done|]. split; [done|]. intros [=].
Qed.

(** X15: a request changes nothing under any other session id: whatever
    the secret, the text, the history and the faults of the stores, every
    other id reads as before in the in-memory dict and in the durable
    store, and the client of the durable store is as it was. *)
Theorem other_sessions_untouched st body x_api_key w other :
  other <> Models.sessionId body ->
  let after := (chat cfg st body x_api_key w).1.1 in
  sessions after !! other = sessions st !! other
  /\ RedisStore.db (redis after) !! other = RedisStore.db (redis st) !! other
  /\ RedisStore.connected (redis after) = RedisStore.connected (redis st).
Proof.
  intros Hne after. subst after.
  destruct (decide (x_api_key = Some (API_KEY cfg))) as [->|Hk];
    [|by rewrite chat_unauthorized].
  destruct (is_empty (strip (Models.text (Models.message body)))) eqn:Ht;
    [by rewrite chat_empty_text|].
  rewrite chat_handled by done. cbv zeta.
  destruct (process cfg _ _ _ _ _ w).1.2 as [[reply count]|]; cbn [fst snd].
  - cbn [redis sessions]. rewrite lookup_insert_ne by done.
    by rewrite save_session_other, save_session_connected.
  - destruct (resolve st w (Models.sessionId body)).2; cbn [redis sessions];
      try done. by rewrite lookup_insert_ne.
Qed.

(** X16: the answer to a request reflects the accumulation on the session
    the request picked up: its message count is that session's count plus
    one, its score that session's score plus the score of the new text,
    its scam flag that session's flag or the new text being a scam on its
    own; the status is "success" and the reply is not empty. *)
Theorem answer_reflects_accumulation st body x_api_key w answer :
  (chat cfg st body x_api_key w).1.2 = inr answer ->
  let before := (resolve st w (Models.sessionId body)).1 in
  let text := Models.text (Models.message body) in
  Models.status answer = "success"
  /\ Models.messageCount answer = Z.of_nat (List.length (messages before)) + 1
  /\ Models.scamScore answer = scamScore before + detect_scam_score text
  /\ Models.scamDetected answer = scamDetected before || is_scam text
  /\ (0 < String.length (Models.reply answer))%nat.
Proof.
  intros Hanswer before text. subst before text.
  destruct (chat_answer_stored cfg _ _ _ _ _ Hanswer) as (_ & Hd & Hs & Hc).
  destruct (chat_answered_inv cfg _ _ _ _ _ Hanswer)
    as (_ & _ & reply & Hreply & Hr & Hstatus).
  rewrite Hd, Hs, Hc, Hr, process_scamDetected, process_scamScore, process_messages.
  rewrite length_app, Nat2Z.inj_add, detect_scam_score_strip, is_scam_strip.
  split; [done|]. split; [done|]. split; [done|]. split; [done|].
  destruct (Models.conversationHistory body) as [h|]; [|done].
  destruct (reply_bounds (strip (Models.text (Models.message body))) h (generated w))
    as (_ & reply' & Hreply' & Hlen & _).
  rewrite Hreply in Hreply'. injection Hreply' as <-. lia.
Qed.


(** X18: a request that is refused or fails creates nothing: the durable
    store is untouched and the in-memory dict holds the same ids as
    before, so an id that the inspection endpoint could not find is still
    not found afterwards. *)
Theorem failed_request_creates_nothing st body x_api_key w refusal :
  (chat cfg st body x_api_key w).1.2 = inl refusal ->
  let after := (chat cfg st body x_api_key w).1.1 in
  redis after = redis st
  /\ dom (sessions after) = dom (sessions st)
  /\ (forall id key get_fault,
        get_session_info cfg st id key get_fault
        = inl (HTTPError 404 "Session not found") ->
        get_session_info cfg after id key get_fault
        = inl (HTTPError 404 "Session not found")).
Proof.
  intros Hrefusal after.
  assert (redis after = redis st /\ dom (sessions after) = dom (sessions st))
    as [Hredis Hdom].
  { subst after.
    destruct (decide (x_api_key = Some (API_KEY cfg))) as [->|Hk];
      [|by rewrite chat_unauthorized].
    destruct (is_empty (strip (Models.text (Models.message body)))) eqn:Ht;
      [by rewrite chat_empty_text|].
    revert Hrefusal. rewrite chat_handled by done. cbv zeta.
    destruct (process cfg _ _ _ _ _ w).1.2 as [[reply count]|]; cbn [fst snd];
      [done|]. intros _.
    destruct (resolve st w (Models.sessionId body)).2 eqn:Hfrom;
      cbn [redis sessions]; try done. split; [done|].
    rewrite dom_insert_L. apply resolve_from_sessions in Hfrom.
    apply elem_of_dom_2 in Hfrom.
    by apply subseteq_union_1_L, singleton_subseteq_l. }
  split; [done|]. split; [done|]. intros id key get_fault.
  unfold get_session_info. rewrite Hredis.
  destruct (negb (bool_decide (key = Some (API_KEY cfg)))); [done|].
  destruct (RedisStore.get_session (redis st) get_fault id); [done|].
  destruct (sessions st !! id) eqn:Hold; [done|]. intros _.
  apply not_elem_of_dom in Hold. rewrite <- Hdom in Hold.
  apply not_elem_of_dom in Hold. by rewrite Hold.
Qed.

End SessionMore.

(** ** The reporter with any bound, and the extractor against the scorer *)
Section ReporterMore.
Import Text Callback Detector ScorerSpec.

(** X20: with a destination URL and any bound, the posts are made one
    after the other and stop with the first that is answered 200: the
    delivery succeeds with exactly the posts up to that one, or fails
    after as many failed posts as the bound allows; a bound of zero or
    less makes no post at all. *)
Theorem delivery_stops_at_first_success (url : string)
    (post : nat -> post_outcome) (payload : Payload) (max_retries : Z) :
  is_empty url = false ->
  let result := send_final_callback url post payload max_retries in
  let bound := Z.to_nat max_retries in
  result.2 = post <$> seq 0 (length result.2)
  /\ (length result.2 <= bound)%nat
  /\ (max_retries <= 0 -> result = (false, []))
  /\ (result.1 = true ->
      exists k, length result.2 = S k /\ post k = Response 200
                /\ forall i, (i < k)%nat -> post i <> Response 200)
  /\ (result.1 = false ->
      length result.2 = bound
      /\ forall i, (i < bound)%nat -> post i <> Response 200).
Proof.
  intros Hurl result bound. subst result bound. unfold send_final_callback.
  rewrite Hurl.
  destruct (attempt_loop_spec post (Z.to_nat max_retries) 0%nat)
    as (Hmade & Hlen & Hbefore & Hok & Hfail).
  cbn [Nat.add] in Hbefore, Hok, Hfail.
  split; [done|]. split; [done|]. split; [|split].
  - intros Hle. replace (Z.to_nat max_retries) with 0%nat by lia. done.
  - intros H. destruct (Hok H) as (k & Hk & Hs). exists k.
    split; [done|]. split; [by apply succeeded_200|].
    intros i Hi Heq. apply succeeded_200 in Heq.
    rewrite Hbefore in Heq by lia. done.
  - intros H. destruct (Hfail H) as [Hn Hall]. split; [done|].
    intros i Hi Heq. apply succeeded_200 in Heq. rewrite Hall in Heq by done.
    done.
Qed.

(** X21: the extractor and the scorer agree on the suspicious keywords:
    every keyword the extractor reports for a text is a key of the scorer's
    table, so the text scores at least that key's weight, which is 2 or
    more. *)
Theorem suspicious_keyword_scores {regex : Extractor.Regex} (text kw : string) :
  kw ∈ ExtractorRisk.getitem (Extractor.extract_intelligence text)
         "suspiciousKeywords" ->
  2 <= detect_scam_score text
  /\ exists weight, (kw, weight) ∈ SCAM_SIGNALS
                    /\ 2 <= weight <= detect_scam_score text.
Proof.
  rewrite extract_keywords. destruct (is_empty text).
  { intros H. by apply elem_of_nil in H. }
  rewrite elem_of_list_set, list_elem_of_In, filter_In. intros [Hin Hc].
  assert (keywords_weigh 2 Extractor.suspicious_keywords_list SCAM_SIGNALS = true)
    as Hweigh by reflexivity.
  unfold keywords_weigh in Hweigh. rewrite forallb_forall in Hweigh.
  apply Hweigh, existsb_exists in Hin as ([k w] & Hk & Hkw).
  apply andb_true_iff in Hkw as [Heq Hw]. apply String.eqb_eq in Heq.
  apply Z.leb_le in Hw. cbn [fst snd] in Heq, Hw. subst k.
  apply list_elem_of_In in Hk.
  assert (w <= detect_scam_score text) as Hle.
  { rewrite detect_scam_score_loop.
    by apply (score_loop_key SCAM_SIGNALS (lower text) kw w). }
  split; [lia|]. exists w. split; [done|]. lia.
Qed.

End ReporterMore.

(** ** The further properties on concrete inputs *)
Section MoreInstances.
Import Text Detector ScorerSpec Main Scenario.

(** A text that names the CVV is a scam on its own. *)
Lemma occurring_key_counts_witness : is_scam "Send me your CVV now" = true.
Proof.
  destruct (occurring_key_counts "Send me your CVV now" "cvv" 4) as [_ Hscam].
  - apply (bool_decide_unpack _). vm_compute. exact I.
  - exists "Send me your ", "CVV", " now". split; reflexivity.
  - apply Hscam. vm_compute. discriminate.
Defined.

Lemma durable_save_round_trip_witness :
  RedisStore.get_session
    (RedisStore.save_session (redis durable_store) false "s-1" seven_messages).1
    false "s-1" = Some seven_messages.
Proof.
  destruct (durable_save_round_trip (redis durable_store) "s-1" seven_messages)
    as (_ & Hget & _); [reflexivity|]. exact Hget.
Defined.

Lemma durable_delete_and_listing_witness :
  RedisStore.get_session
    (RedisStore.delete_session
       (RedisStore.save_session (redis durable_store) false "s-1"
          seven_messages).1 false "s-1").1 false "s-1" = None.
Proof.
  destruct (durable_delete_and_listing
              (RedisStore.save_session (redis durable_store) false "s-1"
                 seven_messages).1 "s-1") as (_ & Hgone & _); [reflexivity|].
  exact Hgone.
Defined.


(** Seven scam messages for a new session: still no report. *)
Lemma no_report_before_eight_witness :
  reports_for "s-2"
    (serve (regex:=plain_text_regex) config durable_store
       (replicate 7 (asks "s-2" "Share your OTP and CVV" false))).2
  = 0%nat.
Proof.
  destruct (no_report_before_eight (regex:=plain_text_regex) config "s-2")
    as [_ Hserve].
  apply (Hserve _ _ 0%nat).
  - split; intros session; cbn; by rewrite lookup_empty.
  - vm_compute. lia.
Defined.

(** The eighth message of the detected session: the report counts eight
    messages and carries the score 63. *)
Lemma report_carries_session_witness :
  exists payload,
    Callback.totalMessagesExchanged payload = 8
    /\ Callback.finalScamScore payload = 63
    /\ Callback.sessionId payload = "s-1".
Proof.
  destruct (report_carries_session (regex:=plain_text_regex) config "s-1"
              seven_messages (step "ok" never_lands))
    as (payload & _ & Hid & _ & Hcount & _ & Hscore & _); [reflexivity|].
  exists payload. split; [|split]; [rewrite Hcount|rewrite Hscore|exact Hid];
    vm_compute; reflexivity.
Defined.

Lemma null_history_fails_midway_witness :
  (chat (regex:=plain_text_regex) config memory_store
     (request_without_history "s-1" "ok") (Some "s3cret")
     (world 5 never_lands false)).1.2
  = inl (HTTPError 500 "Internal server error").
Proof.
  destruct (null_history_fails_midway (regex:=plain_text_regex) config
              memory_store (request_without_history "s-1" "ok")
              (world 5 never_lands false)) as (Hanswer & _);
    [reflexivity | reflexivity |]. exact Hanswer.
Defined.

Lemma other_sessions_untouched_witness :
  sessions
    (chat (regex:=plain_text_regex) config memory_store
       (request "s-2" "Share your OTP and CVV") (Some "s3cret")
       (world 5 never_lands false)).1.1 !! "s-1"
  = sessions memory_store !! "s-1".
Proof.
  destruct (other_sessions_untouched (regex:=plain_text_regex) config memory_store
              (request "s-2" "Share your OTP and CVV") (Some "s3cret")
              (world 5 never_lands false) "s-1") as (Hmem & _); [discriminate|].
  exact Hmem.
Defined.

Lemma first_answer_given :
  (chat (regex:=plain_text_regex) config no_store
     (request "s-4" "Share your OTP and CVV") (Some "s3cret")
     (world 5 never_lands false)).1.2 = inr first_answer.
Proof. vm_compute. reflexivity. Qed.

Lemma answer_reflects_accumulation_witness :
  Models.messageCount first_answer
  = Z.of_nat
      (List.length
         (messages (resolve no_store (world 5 never_lands false) "s-4").1)) + 1.
Proof.
  destruct (answer_reflects_accumulation (regex:=plain_text_regex) config
              no_store (request "s-4" "Share your OTP and CVV") (Some "s3cret")
              (world 5 never_lands false) first_answer first_answer_given)
    as (_ & Hcount & _). exact Hcount.
Defined.


Lemma failed_request_creates_nothing_witness :
  dom (sessions
         (chat (regex:=plain_text_regex) config no_store (request "s-5" "hello")
            (Some "guess") (world 5 never_lands false)).1.1)
  = dom (sessions no_store).
Proof.
  destruct (failed_request_creates_nothing (regex:=plain_text_regex) config
              no_store (request "s-5" "hello") (Some "guess")
              (world 5 never_lands false)
              (HTTPError 401 "Invalid API Key") eq_refl) as (_ & Hdom & _).
  exact Hdom.
Defined.

(** A bound of zero: no post, and failure. *)
Lemma delivery_stops_at_first_success_witness :
  Callback.send_final_callback "https://collector.example/report"
    second_post_lands
    {| Callback.sessionId := "s-1"; Callback.scamDetected := true;
       Callback.totalMessagesExchanged := 8;
       Callback.extractedIntelligence := ∅;
       Callback.agentNotes := ""; Callback.finalScamScore := 9;
       Callback.timestamp := 5 |} 0
  = (false, []).
Proof.
  destruct (delivery_stops_at_first_success "https://collector.example/report"
              second_post_lands
              {| Callback.sessionId := "s-1"; Callback.scamDetected := true;
                 Callback.totalMessagesExchanged := 8;
                 Callback.extractedIntelligence := ∅;
                 Callback.agentNotes := ""; Callback.finalScamScore := 9;
                 Callback.timestamp := 5 |} 0 eq_refl)
    as (_ & _ & Hnone & _).
  apply Hnone. lia.
Defined.

Lemma suspicious_keyword_scores_witness :
  2 <= detect_scam_score "Please verify".
Proof.
  destruct (suspicious_keyword_scores (regex:=plain_text_regex) "Please verify"
              "verify") as [Hscore _]; [|exact Hscore].
  apply (bool_decide_unpack _). vm_compute. exact I.
Defined.

(** Two qualifying requests for the detected session, saves going
    through: one report. *)
Lemma serve_reports_once_witness :
  (reports_for "s-1"
     (serve (regex:=plain_text_regex) config memory_store
        [ {| request_body := request "s-1" "ok"; request_key := Some "s3cret";
             request_world := world 5 never_lands false |};
          {| request_body := request "s-1" "ok"; request_key := Some "s3cret";
             request_world := world 6 never_lands false |} ]).2 <= 1)%nat.
Proof.
  apply (serve_reports_once (regex:=plain_text_regex) config).
  repeat constructor.
Defined.

Example two_requests_one_report :
  reports_for "s-1"
    (serve (regex:=plain_text_regex) config memory_store
       [ {| request_body := request "s-1" "ok"; request_key := Some "s3cret";
            request_world := world 5 never_lands false |};
         {| request_body := request "s-1" "ok"; request_key := Some "s3cret";
            request_world := world 6 never_lands false |} ]).2 = 1%nat.
Proof. vm_compute. reflexivity. Qed.

End MoreInstances.
